(** * Figure understanding pipeline: [preprocessing_with_image.py]

    A shallow embedding of the module that crops the figures a layout
    analyzer found in a document, asks a multimodal model to describe each
    crop and splices the descriptions back into the document's markdown.

    Conventions of the embedding.
    - A Python [str] is a [string]; positions and lengths that Python
      computes as [int] are [Z], and the helpers below spell out what
      [str.find] and slicing do with them.
    - A value that may be [None] is an [option]; what the module does
      with [None] where it expects a list or a string (it raises
      [TypeError]) is written out.
    - Calls that leave the module (PIL, PyMuPDF, the file system, the two
      remote services) are performed through an environment that answers
      every call, possibly with an exception; each call is recorded in a
      trace together with its answer.
    - The trace also notes every entry into [crop_image_from_file] and
      [understand_image_with_gpt], with the arguments received, so that
      statements about who was called with what can be read off it.
    - [print] statements write to the console only; they are left out. *)

From Stdlib Require Import String Ascii ZArith List Lia Bool.
From Stdlib Require Import DecimalString DecimalPos DecimalZ PrimFloat Strings.Byte.
Import ListNotations.

Local Open Scope string_scope.
Local Open Scope Z_scope.

(** ** Python strings *)

Module PyStr.

(** The one-character string holding a double quote (code 34). *)
Definition dquote : string := String "034"%char EmptyString.

(** [str(n)] for a Python [int]: decimal digits, with a leading minus sign
    for negative numbers. *)
Definition str (n : Z) : string := NilZero.string_of_int (Z.to_int n).

(** [len(s)]. *)
Definition len (s : string) : Z := Z.of_nat (String.length s).

(** How a slice bound [i] is read against a string of [n] characters:
    a negative bound counts from the end, and every bound is clamped to
    the range from [0] to [n]. *)
Definition clamp (n i : Z) : nat :=
  Z.to_nat (if i <? 0 then Z.max 0 (i + n) else Z.min i n).

(** [s[:stop]]. *)
Definition slice_to (s : string) (stop : Z) : string :=
  substring 0 (clamp (len s) stop) s.

(** [s[start:]]. *)
Definition slice_from (s : string) (start : Z) : string :=
  let i := clamp (len s) start in
  substring i (String.length s - i) s.

(** [s.find(sub, start)]: the lowest position at or after [start] where
    [sub] occurs in [s], or [-1].  A negative [start] counts from the end;
    a [start] beyond the end finds nothing, not even the empty string. *)
Definition find (s sub : string) (start : Z) : Z :=
  let st := if start <? 0 then Z.max 0 (start + len s) else start in
  match index (Z.to_nat st) sub s with
  | Some i => Z.of_nat i
  | None => -1
  end.

(** [s.endswith(suffix)]. *)
Definition endswith (s suffix : string) : bool :=
  (String.length suffix <=? String.length s)%nat &&
  String.eqb
    (substring (String.length s - String.length suffix)
       (String.length suffix) s)
    suffix.

(** [sub] occurs in [s] at position [i]. *)
Definition occurs_at (sub s : string) (i : nat) : Prop :=
  (i + String.length sub <= String.length s)%nat /\
  substring i (String.length sub) s = sub.

(** [i] is the first position at or after [start] where [sub] occurs. *)
Definition first_occurrence_from (sub s : string) (start i : nat) : Prop :=
  (start <= i)%nat /\ occurs_at sub s i /\
  forall j, (start <= j < i)%nat -> ~ occurs_at sub s j.

End PyStr.

(** ** The markdown patcher *)

(** The placeholder the analyzer leaves in the markdown for figure [idx]. *)
Definition start_substring (idx : Z) : string :=
  "![](figures/" ++ PyStr.str idx ++ ")".

Definition end_substring : string := "</figure>".

(** The annotation that replaces the figure body. *)
Definition new_string (img_description : string) : string :=
  "<!-- FigureContent=" ++ PyStr.dquote ++ img_description ++ PyStr.dquote ++ " -->".

Definition update_figure_description
    (md_content img_description : string) (idx : Z) : string :=
  let start_index := PyStr.find md_content (start_substring idx) 0 in
  if negb (start_index =? -1) then
    let start_index := start_index + PyStr.len (start_substring idx) in
    let end_index := PyStr.find md_content end_substring start_index in
    if negb (end_index =? -1) then
      PyStr.slice_to md_content start_index
        ++ new_string img_description
        ++ PyStr.slice_from md_content end_index
    else md_content
  else md_content.

(** No exclamation mark and no closing parenthesis among the characters
    of [s]. *)
Definition plain_chars (s : string) : Prop :=
  Forall (fun c => c <> "!"%char /\ c <> ")"%char) (list_ascii_of_string s).

(** ** Base64, as [base64.b64encode] produces it

    The standard alphabet with [=] padding.  Each group of three bytes is
    cut into four groups of six bits; a last group of one or two bytes is
    filled with zero bits and padded to four characters. *)

Module Base64.

(** Six bits, most significant first. *)
Definition sextet : Type := (bool * bool * bool * bool * bool * bool)%type.

Definition alphabet : list byte :=
  list_byte_of_string
    "ABCDEFGHIJKLMNOPQRSTUVWXYZabcdefghijklmnopqrstuvwxyz0123456789+/".

Definition pad : byte := "="%byte.

Definition bit (b : bool) : nat := if b then 1%nat else 0%nat.

Definition sextet_value (s : sextet) : nat :=
  let '(b5, b4, b3, b2, b1, b0) := s in
  (32 * bit b5 + 16 * bit b4 + 8 * bit b3 + 4 * bit b2 + 2 * bit b1 + bit b0)%nat.

Definition encode_sextet (s : sextet) : byte := nth (sextet_value s) alphabet pad.

Definition all_sextets : list sextet :=
  let bs := [false; true] in
  flat_map (fun b5 => flat_map (fun b4 => flat_map (fun b3 =>
  flat_map (fun b2 => flat_map (fun b1 => map (fun b0 =>
    (b5, b4, b3, b2, b1, b0)) bs) bs) bs) bs) bs) bs.

(** The six bits a character of the alphabet stands for. *)
Definition decode_char (c : byte) : option sextet :=
  find (fun s => Byte.eqb (encode_sextet s) c) all_sextets.

(** [Byte.to_bits] lists the bits of a byte least significant first. *)
Definition encode1 (x : byte) : list byte :=
  let '(x0, (x1, (x2, (x3, (x4, (x5, (x6, x7))))))) := Byte.to_bits x in
  [ encode_sextet (x7, x6, x5, x4, x3, x2);
    encode_sextet (x1, x0, false, false, false, false);
    pad; pad ].

Definition encode2 (x y : byte) : list byte :=
  let '(x0, (x1, (x2, (x3, (x4, (x5, (x6, x7))))))) := Byte.to_bits x in
  let '(y0, (y1, (y2, (y3, (y4, (y5, (y6, y7))))))) := Byte.to_bits y in
  [ encode_sextet (x7, x6, x5, x4, x3, x2);
    encode_sextet (x1, x0, y7, y6, y5, y4);
    encode_sextet (y3, y2, y1, y0, false, false);
    pad ].

Definition encode3 (x y z : byte) : list byte :=
  let '(x0, (x1, (x2, (x3, (x4, (x5, (x6, x7))))))) := Byte.to_bits x in
  let '(y0, (y1, (y2, (y3, (y4, (y5, (y6, y7))))))) := Byte.to_bits y in
  let '(z0, (z1, (z2, (z3, (z4, (z5, (z6, z7))))))) := Byte.to_bits z in
  [ encode_sextet (x7, x6, x5, x4, x3, x2);
    encode_sextet (x1, x0, y7, y6, y5, y4);
    encode_sextet (y3, y2, y1, y0, z7, z6);
    encode_sextet (z5, z4, z3, z2, z1, z0) ].

Fixpoint b64encode (s : list byte) : list byte :=
  match s with
  | [] => []
  | [x] => encode1 x
  | [x; y] => encode2 x y
  | x :: y :: z :: rest => encode3 x y z ++ b64encode rest
  end.

Definition first_byte (s1 s2 : sextet) : byte :=
  let '(a5, a4, a3, a2, a1, a0) := s1 in
  let '(b5, b4, _, _, _, _) := s2 in
  Byte.of_bits (b4, (b5, (a0, (a1, (a2, (a3, (a4, a5))))))).

Definition second_byte (s2 s3 : sextet) : byte :=
  let '(_, _, b3, b2, b1, b0) := s2 in
  let '(c5, c4, c3, c2, _, _) := s3 in
  Byte.of_bits (c2, (c3, (c4, (c5, (b0, (b1, (b2, b3))))))).

Definition third_byte (s3 s4 : sextet) : byte :=
  let '(_, _, _, _, c1, c0) := s3 in
  let '(d5, d4, d3, d2, d1, d0) := s4 in
  Byte.of_bits (d0, (d1, (d2, (d3, (d4, (d5, (c0, c1))))))).

(** The strict decoder: groups of four characters of the alphabet, the
    last group possibly ending in one or two pad characters.  [None] is
    the answer to text that is not a base64 encoding. *)
Fixpoint b64decode (s : list byte) : option (list byte) :=
  match s with
  | [] => Some []
  | c1 :: c2 :: c3 :: c4 :: rest =>
      match decode_char c1, decode_char c2 with
      | Some s1, Some s2 =>
          if Byte.eqb c4 pad then
            match rest with
            | [] =>
                if Byte.eqb c3 pad then Some [first_byte s1 s2]
                else
                  match decode_char c3 with
                  | Some s3 => Some [first_byte s1 s2; second_byte s2 s3]
                  | None => None
                  end
            | _ :: _ => None
            end
          else
            match decode_char c3, decode_char c4, b64decode rest with
            | Some s3, Some s4, Some tail =>
                Some (first_byte s1 s2 :: second_byte s2 s3
                        :: third_byte s3 s4 :: tail)
            | _, _, _ => None
            end
      | _, _ => None
      end
  | _ => None
  end.

End Base64.

(** ** What the layout analyzer returns

    The fields of the SDK's result objects that the module reads.  A
    figure's [spans] are read only to print the original figure text and
    are left out with the prints.  The SDK declares the bounding regions
    of a figure and of a caption, the caption of a figure and the figures
    of a result as optional: such a field holds a value or [None]. *)

(** Polygon coordinates are binary64 numbers, as the SDK declares them. *)
Record BoundingRegion := {
  page_number : Z;
  polygon : list float
}.

Record DocumentCaption := {
  caption_content : string;
  caption_bounding_regions : option (list BoundingRegion)
}.

Record DocumentFigure := {
  figure_caption : option DocumentCaption;
  figure_bounding_regions : option (list BoundingRegion)
}.

Record AnalyzeResult := {
  result_content : string;
  result_figures : option (list DocumentFigure)
}.

(** [a == b] on bounding regions: same page and the same coordinates,
    compared as Python compares floats. *)
Fixpoint polygon_eqb (p q : list float) : bool :=
  match p, q with
  | [], [] => true
  | x :: p', y :: q' => PrimFloat.eqb x y && polygon_eqb p' q'
  | _, _ => false
  end.

Definition region_eqb (a b : BoundingRegion) : bool :=
  (page_number a =? page_number b) && polygon_eqb (polygon a) (polygon b).

(** [region in regions].  The regions of a figure and those of its
    caption are separate objects, so membership is decided by [==]. *)
Definition region_in (region : BoundingRegion) (regions : list BoundingRegion) : bool :=
  existsb (region_eqb region) regions.

(** (left, top, right, bottom). *)
Definition BoundingBox : Type := (float * float * float * float)%type.

(** ** Objects of the libraries *)

(** [fitz.Rect(x0, y0, x1, y1)]. *)
Record Rect := { x0 : float; y0 : float; x1 : float; y1 : float }.

(** [fitz.Matrix(sx, sy)]: the scaling by [sx] and [sy]. *)
Record Matrix := { sx : float; sy : float }.

(** The attributes read off a [fitz.Pixmap]. *)
Record Pixmap := { width : Z; height : Z; samples : list byte }.

Inductive ContentFormat := TEXT | MARKDOWN.

(** Chat messages, as the dictionaries the module builds. *)
Inductive content_part :=
| text_part (text : string)
| image_url_part (url : string).

Inductive message_content :=
| plain (text : string)
| parts (ps : list content_part).

Record message := { role : string; content : message_content }.

(** A completion, as the list of its choices' message contents.  The
    content of a message is optional: it is a text or [None]. *)
Record ChatCompletion := { choices : list (option string) }.

(** The opaque objects the libraries hand out, the functions of the
    standard library whose answers depend on the platform, and the heading
    normalizer, which lives in [preprocessing.preprocessing]. *)
Class Libraries := {
  PILImage : Type;
  image_format : PILImage -> option string;
  Document : Type;
  Page : Type;
  BinaryFile : Type;
  OpenAIClient : Type;
  LayoutClient : Type;
  Poller : Type;
  guess_type : string -> option string * option string;
  basename : string -> string;
  splitext : string -> string * string;
  path_join : string -> string -> string;
  convert_markdown_headings : string -> string
}.

(** [IndexError] and [ValueError] are what indexing a list and building
    a rectangle raise, [TypeError] is what iterating over [None],
    searching [None] and appending [None] to a string raise; [Raised name]
    stands for any exception a library call ends with. *)
Inductive exception :=
| IndexError
| ValueError
| TypeError
| Raised (name : string).

(** ** Effects *)

Section Effects.

Context {L : Libraries}.

Local Open Scope list_scope.

(** The calls that leave the module, indexed by what they return. *)
Inductive call : Type -> Type :=
| Image_open (fp : string) : call PILImage
| Image_seek (img : PILImage) (frame : Z) : call unit
| Image_copy (img : PILImage) : call PILImage
| Image_crop (img : PILImage) (box : BoundingBox) : call PILImage
| Image_exit (img : PILImage) : call unit
| Image_frombytes (mode : string) (size : Z * Z) (data : list byte) : call PILImage
| Image_save (img : PILImage) (fp : string) : call unit
| fitz_open (filename : string) : call Document
| Document_load_page (doc : Document) (page_id : Z) : call Page
| Page_get_pixmap (page : Page) (matrix : Matrix) (clip : Rect) : call Pixmap
| Document_close (doc : Document) : call unit
| open_rb (file : string) : call BinaryFile
| file_read (f : BinaryFile) : call (list byte)
| file_exit (f : BinaryFile) : call unit
| AzureOpenAI (api_key api_version base_url : string) : call OpenAIClient
| chat_completions_create (client : OpenAIClient) (model : string)
    (messages : list message) (max_tokens : Z) : call ChatCompletion
| DocumentIntelligenceClient (endpoint key : string)
    (headers : list (string * string)) : call LayoutClient
| begin_analyze_document (client : LayoutClient) (model_id : string)
    (analyze_request : BinaryFile) (content_type : string)
    (output_content_format : ContentFormat) : call Poller
| Poller_result (poller : Poller) : call AnalyzeResult.

(** The two helpers [analyze_layout] calls for each region; the trace
    notes each entry into them with the arguments received. *)
Inductive invocation :=
| crop_image_from_file_call (file_path : string) (page_number : Z)
    (bounding_box : BoundingBox)
| understand_image_with_gpt_call (image_path caption : string).

Inductive event :=
| Called {A : Type} (c : call A) (answer : exception + A)
| Entered (f : invocation).

(** The world outside the module: it answers every call, knowing what
    happened so far. *)
Definition oracle : Type := list event -> forall A, call A -> exception + A.

(** A computation reads the world and the history and yields a result or
    an exception, together with the events it added. *)
Definition M (A : Type) : Type := oracle -> list event -> (exception + A) * list event.

Definition ret {A} (a : A) : M A := fun _ _ => (inr a, []).

Definition raise {A} (e : exception) : M A := fun _ _ => (inl e, []).

Definition bind {A B} (m : M A) (k : A -> M B) : M B :=
  fun w h =>
    match m w h with
    | (inl e, t) => (inl e, t)
    | (inr a, t) =>
        let '(r, t') := k a w (h ++ t) in (r, t ++ t')
    end.

Definition ext {A} (c : call A) : M A :=
  fun w h => let r := w h A c in (r, [Called c r]).

Definition enter (f : invocation) : M unit := fun _ _ => (inr tt, [Entered f]).

(** [with enter_ as x: body]: [exit_ x] runs when the body returns and
    when it raises, and then the body's outcome stands. *)
Definition with_ {A B} (enter_ : M A) (exit_ : A -> M unit) (body : A -> M B) : M B :=
  bind enter_ (fun x w h =>
    let '(r, t) := body x w h in
    match exit_ x w (h ++ t) with
    | (inl e, t') => (inl e, t ++ t')
    | (inr _, t') => (r, t ++ t')
    end).

(** [for x in l: acc = body x acc]. *)
Fixpoint for_each {A S} (l : list A) (body : A -> S -> M S) (acc : S) : M S :=
  match l with
  | [] => ret acc
  | x :: l' => bind (body x acc) (for_each l' body)
  end.

(** [l[i]] for a constant index [i >= 0]. *)
Definition getitem {A} (l : list A) (i : nat) : M A :=
  match nth_error l i with
  | Some a => ret a
  | None => raise IndexError
  end.

(** [for x in l] begins by asking [l] for its items, which [None] does
    not have. *)
Definition iter {A} (l : option (list A)) : M (list A) :=
  match l with
  | Some items => ret items
  | None => raise TypeError
  end.

(** [region in regions], for regions that may be [None]. *)
Definition contains (region : BoundingRegion)
    (regions : option (list BoundingRegion)) : M bool :=
  match regions with
  | Some items => ret (region_in region items)
  | None => raise TypeError
  end.

(** [description += text], for a text that may be [None]. *)
Definition iadd (description : string) (text : option string) : M string :=
  match text with
  | Some s => ret (description ++ s)%string
  | None => raise TypeError
  end.

(** [enumerate(l)], counting from [i]. *)
Fixpoint enumerate_from {A} (i : Z) (l : list A) : list (Z * A) :=
  match l with
  | [] => []
  | x :: l' => (i, x) :: enumerate_from (i + 1) l'
  end.

End Effects.

Declare Scope py_scope.
Delimit Scope py_scope with py.
Notation "x <- m ;; k" := (bind m (fun x => k))
  (at level 61, m at next level, right associativity) : py_scope.
Notation "m ;; k" := (bind m (fun _ => k))
  (at level 61, right associativity) : py_scope.

(** ** The module *)

Section Module_.

Context {L : Libraries}.

Local Open Scope py_scope.

Definition MAX_TOKENS : Z := 2000.

(** [value == name], for a value that is a string or [None]. *)
Definition is_str (value : option string) (name : string) : bool :=
  match value with
  | Some s => String.eqb s name
  | None => false
  end.

Definition crop_image_from_image
    (image_path : string) (page_number : Z) (bounding_box : BoundingBox)
    : M PILImage :=
  with_ (ext (Image_open image_path)) (fun img => ext (Image_exit img))
    (fun img =>
       img <- (if is_str (image_format img) "TIFF" then
                 ext (Image_seek img page_number) ;;
                 ext (Image_copy img)
               else ret img) ;;
       cropped_image <- ext (Image_crop img bounding_box) ;;
       ret cropped_image).

(** The four numbers of a box, in the order iteration yields them. *)
Definition box_items (bounding_box : BoundingBox) : list float :=
  let '(l, t, r, b) := bounding_box in [l; t; r; b].

(** [fitz.Rect(seq)] wants exactly four numbers. *)
Definition fitz_Rect (seq : list float) : M Rect :=
  match seq with
  | [a; b; c; d] => ret {| x0 := a; y0 := b; x1 := c; y1 := d |}
  | _ => raise ValueError
  end.

Definition crop_image_from_pdf_page
    (pdf_path : string) (page_number : Z) (bounding_box : BoundingBox)
    : M PILImage :=
  doc <- ext (fitz_open pdf_path) ;;
  page <- ext (Document_load_page doc page_number) ;;
  let bbx := map (fun x => (x * 72)%float) (box_items bounding_box) in
  rect <- fitz_Rect bbx ;;
  pix <- ext (Page_get_pixmap page
                {| sx := (300 / 72)%float; sy := (300 / 72)%float |} rect) ;;
  img <- ext (Image_frombytes "RGB" (width pix, height pix) (samples pix)) ;;
  ext (Document_close doc) ;;
  ret img.

Definition crop_image_from_file
    (file_path : string) (page_number : Z) (bounding_box : BoundingBox)
    : M PILImage :=
  enter (crop_image_from_file_call file_path page_number bounding_box) ;;
  let mime_type := fst (guess_type file_path) in
  if is_str mime_type "application/pdf" then
    crop_image_from_pdf_page file_path page_number bounding_box
  else
    crop_image_from_image file_path page_number bounding_box.

(** [.decode('utf-8')] of the output of [b64encode], which is ASCII. *)
Definition decode_utf8 (data : list byte) : string := string_of_list_byte data.

Definition local_image_to_data_url (image_path : string) : M string :=
  let '(mime_type, _) := guess_type image_path in
  let mime_type :=
    match mime_type with
    | None => "application/octet-stream"
    | Some m => m
    end in
  base64_encoded_data <-
    with_ (ext (open_rb image_path)) (fun f => ext (file_exit f))
      (fun image_file =>
         data <- ext (file_read image_file) ;;
         ret (decode_utf8 (Base64.b64encode data))) ;;
  ret ("data:" ++ mime_type ++ ";base64," ++ base64_encoded_data).

(** The text part of the user message; [if caption] holds for a
    non-empty string. *)
Definition user_text (caption : string) : content_part :=
  match caption with
  | String _ _ =>
      text_part ("Describe this image (note: it has image caption: "
                   ++ caption ++ "):")
  | EmptyString => text_part "Describe this image:"
  end.

Definition chat_messages (caption data_url : string) : list message :=
  [ {| role := "system"; content := plain "You are a helpful assistant." |};
    {| role := "user";
       content := parts [ user_text caption; image_url_part data_url ] |} ].

Definition understand_image_with_gpt
    (api_base api_key deployment_name api_version image_path caption : string)
    : M (option string) :=
  enter (understand_image_with_gpt_call image_path caption) ;;
  client <- ext (AzureOpenAI api_key api_version
                   (api_base ++ "/openai/deployments/" ++ deployment_name)) ;;
  data_url <- local_image_to_data_url image_path ;;
  let messages := chat_messages caption data_url in
  response <- ext (chat_completions_create client deployment_name
                     messages MAX_TOKENS) ;;
  getitem (choices response) 0.

Section AnalyzeLayout.

Variables (input_file_path output_folder
           doc_intelligence_endpoint doc_intelligence_key
           aoai_api_base aoai_api_key aoai_deployment_name aoai_api_version
           : string).

(** The tuple [(polygon[0], polygon[1], polygon[4], polygon[5])]. *)
Definition boundingbox (region : BoundingRegion) : M BoundingBox :=
  a <- getitem (polygon region) 0 ;;
  b <- getitem (polygon region) 1 ;;
  c <- getitem (polygon region) 4 ;;
  d <- getitem (polygon region) 5 ;;
  ret (a, b, c, d).

(** Where the crops of figure [idx] are saved. *)
Definition cropped_image_filename (idx : Z) : string :=
  let base_name := basename input_file_path in
  let file_name_without_extension := fst (splitext base_name) in
  let output_file :=
    file_name_without_extension ++ "_cropped_image_" ++ PyStr.str idx ++ ".png" in
  path_join output_folder output_file.

(** The body both region loops share; they differ in the caption they
    pass on.  It returns the description extended by the new text, which
    [+=] takes only when it is a string. *)
Definition describe_region (idx : Z) (caption : string)
    (region : BoundingRegion) (img_description : string) : M string :=
  box <- boundingbox region ;;
  cropped_image <-
    crop_image_from_file input_file_path (page_number region - 1) box ;;
  ext (Image_save cropped_image (cropped_image_filename idx)) ;;
  text <- understand_image_with_gpt aoai_api_base aoai_api_key
            aoai_deployment_name aoai_api_version
            (cropped_image_filename idx) caption ;;
  iadd img_description text.

(** The description gathered for one figure. *)
Definition describe_figure (idx : Z) (figure : DocumentFigure) : M string :=
  match figure_caption figure with
  | Some caption =>
      let caption_region := caption_bounding_regions caption in
      regions <- iter (figure_bounding_regions figure) ;;
      for_each regions
        (fun region img_description =>
           found <- contains region caption_region ;;
           if negb found then
             describe_region idx (caption_content caption) region img_description
           else ret img_description)
        EmptyString
  | None =>
      regions <- iter (figure_bounding_regions figure) ;;
      for_each regions
        (describe_region idx EmptyString)
        EmptyString
  end.

(** One turn of the loop over the figures. *)
Definition figure_step (entry : Z * DocumentFigure) (md_content : string)
    : M string :=
  let '(idx, figure) := entry in
  img_description <- describe_figure idx figure ;;
  ret (update_figure_description md_content img_description idx).

Definition analyze_layout : M string :=
  document_intelligence_client <-
    ext (DocumentIntelligenceClient doc_intelligence_endpoint
           doc_intelligence_key
           [("x-ms-useragent", "sample-code-figure-understanding/1.0.0")]) ;;
  poller <-
    with_ (ext (open_rb input_file_path)) (fun f => ext (file_exit f))
      (fun f =>
         ext (begin_analyze_document document_intelligence_client
                "prebuilt-layout" f "application/octet-stream" MARKDOWN)) ;;
  result <- ext (Poller_result poller) ;;
  let md_content := result_content result in
  md_content <-
    match result_figures result with
    | Some (figure :: figures) =>
        for_each (enumerate_from 0 (figure :: figures)) figure_step md_content
    | _ => ret md_content
    end ;;
  let md_content_return := convert_markdown_headings md_content in
  ret md_content_return.

End AnalyzeLayout.

End Module_.

(** ** Reading traces *)

Section Traces.

Context {L : Libraries}.

Local Open Scope list_scope.

(** The events of a trace that [f] recognises, in order. *)
Definition pick {B} (f : event -> option B) (t : list event) : list B :=
  flat_map (fun e => match f e with Some b => [b] | None => [] end) t.

(** The invocations of [understand_image_with_gpt]: image path, caption. *)
Definition understand_calls : list event -> list (string * string) :=
  pick (fun e => match e with
                 | Entered (understand_image_with_gpt_call p c) => Some (p, c)
                 | _ => None
                 end).

(** The invocations of [crop_image_from_file]: path, page, box. *)
Definition crop_calls : list event -> list (string * Z * BoundingBox) :=
  pick (fun e => match e with
                 | Entered (crop_image_from_file_call p n b) => Some (p, n, b)
                 | _ => None
                 end).

(** The file names images were saved under. *)
Definition saved_files : list event -> list string :=
  pick (fun e => match e with
                 | Called (Image_save _ fp) _ => Some fp
                 | _ => None
                 end).

(** The scale matrices and clip rectangles given to the PDF renderer. *)
Definition pixmap_requests : list event -> list (Matrix * Rect) :=
  pick (fun e => match e with
                 | Called (Page_get_pixmap _ m clip) _ => Some (m, clip)
                 | _ => None
                 end).

(** The boxes given to [Image.crop]. *)
Definition crop_boxes : list event -> list BoundingBox :=
  pick (fun e => match e with
                 | Called (Image_crop _ box) _ => Some box
                 | _ => None
                 end).

(** The frames sought with [Image.seek]. *)
Definition seeks : list event -> list Z :=
  pick (fun e => match e with
                 | Called (Image_seek _ frame) _ => Some frame
                 | _ => None
                 end).

(** The requests sent to the chat endpoint. *)
Definition chat_requests : list event -> list (list message) :=
  pick (fun e => match e with
                 | Called (chat_completions_create _ _ messages _) _ =>
                     Some messages
                 | _ => None
                 end).

(** The text parts of the user messages of a request. *)
Definition user_texts (messages : list message) : list string :=
  flat_map
    (fun m =>
       if String.eqb (role m) "user" then
         match content m with
         | parts ps =>
             flat_map (fun p => match p with
                                | text_part text => [text]
                                | image_url_part _ => []
                                end) ps
         | plain _ => []
         end
       else [])
    messages.

(** A computation none of whose events [f] recognises, whatever the
    world answers. *)
Definition silent {A B} (f : event -> option B) (m : M A) : Prop :=
  forall w h, pick f (snd (m w h)) = [].

(** A computation all of whose events that [f] recognises satisfy [P],
    whatever the world answers. *)
Definition picks_only {A B} (f : event -> option B) (P : B -> Prop) (m : M A)
    : Prop :=
  forall w h, Forall P (pick f (snd (m w h))).

(** A file that [open] returned, and a file whose [with] block was
    left. *)
Definition opens_file (e : event) : option BinaryFile :=
  match e with
  | Called c a =>
      match c in call T return exception + T -> option BinaryFile with
      | open_rb _ => fun a => match a with inr f => Some f | inl _ => None end
      | _ => fun _ => None
      end a
  | Entered _ => None
  end.

Definition exits_file (e : event) : option BinaryFile :=
  match e with
  | Called (file_exit f) _ => Some f
  | _ => None
  end.

Definition opened_files : list event -> list BinaryFile := pick opens_file.
Definition exited_files : list event -> list BinaryFile := pick exits_file.

(** The same for the images that [Image.open] returned. *)
Definition opens_image (e : event) : option PILImage :=
  match e with
  | Called c a =>
      match c in call T return exception + T -> option PILImage with
      | Image_open _ =>
          fun a => match a with inr img => Some img | inl _ => None end
      | _ => fun _ => None
      end a
  | Entered _ => None
  end.

Definition exits_image (e : event) : option PILImage :=
  match e with
  | Called (Image_exit img) _ => Some img
  | _ => None
  end.

Definition opened_images : list event -> list PILImage := pick opens_image.
Definition exited_images : list event -> list PILImage := pick exits_image.

(** The documents that [fitz.open] returned, and those [close] was
    called on. *)
Definition opens_document (e : event) : option Document :=
  match e with
  | Called c a =>
      match c in call T return exception + T -> option Document with
      | fitz_open _ =>
          fun a => match a with inr doc => Some doc | inl _ => None end
      | _ => fun _ => None
      end a
  | Entered _ => None
  end.

Definition closes_document (e : event) : option Document :=
  match e with
  | Called (Document_close doc) _ => Some doc
  | _ => None
  end.

Definition opened_documents : list event -> list Document := pick opens_document.
Definition closed_documents : list event -> list Document := pick closes_document.

(** The model and the token cap of each chat request. *)
Definition chat_settings : list event -> list (string * Z) :=
  pick (fun e => match e with
                 | Called (chat_completions_create _ model _ cap) _ =>
                     Some (model, cap)
                 | _ => None
                 end).

(** The content of the first choice of each completion received: a
    text or [None]. *)
Definition first_choice_of (e : event) : option (option string) :=
  match e with
  | Called c a =>
      match c in call T return exception + T -> option (option string) with
      | chat_completions_create _ _ _ _ =>
          fun a => match a with
                   | inr response => nth_error (choices response) 0
                   | inl _ => None
                   end
      | _ => fun _ => None
      end a
  | Entered _ => None
  end.

Definition first_choices : list event -> list (option string) :=
  pick first_choice_of.

(** The texts among the first choices. *)
Definition first_texts (t : list event) : list string :=
  flat_map (fun content => match content with
                           | Some text => [text]
                           | None => []
                           end)
           (first_choices t).

(** [for text in texts: description += text]. *)
Definition appended (description : string) (texts : list string) : string :=
  fold_left String.append texts description.

(** The patches of a run, applied in the order of the figures: figure
    [i], [i + 1], ... gets the texts its segment of the trace received. *)
Fixpoint patched (md : string) (i : Z) (segs : list (list event)) : string :=
  match segs with
  | [] => md
  | seg :: segs' =>
      patched
        (update_figure_description md
           (appended EmptyString (first_texts seg)) i)
        (i + 1) segs'
  end.

(** The calls that ended with an exception. *)
Definition failed (e : event) : bool :=
  match e with
  | Called _ (inl _) => true
  | _ => false
  end.

(** A computation in which two selectors always find the same things:
    what was opened is what was left. *)
Definition balanced {A B} (opened exited : event -> option B) (m : M A) : Prop :=
  forall w h, pick opened (snd (m w h)) = pick exited (snd (m w h)).

(** [e] is the exception one of the calls of the trace ended with. *)
Definition raised_by_a_call (e : exception) (t : list event) : Prop :=
  exists A (c : call A), In (Called c (inl e)) t.

(** A computation that raises nothing but [IndexError], [TypeError] or
    what one of its calls raised. *)
Definition relays {A} (m : M A) : Prop :=
  forall w h e t,
    m w h = (inl e, t) ->
    e = IndexError \/ e = TypeError \/ raised_by_a_call e t.

(** A computation that returns only when none of its calls failed. *)
Definition unforgiving {A} (m : M A) : Prop :=
  forall w h a t, m w h = (inr a, t) -> existsb failed t = false.

(** The figures of an analysis; none when the field is absent. *)
Definition figures_of (result : AnalyzeResult) : list DocumentFigure :=
  match result_figures result with
  | Some figures => figures
  | None => []
  end.

(** The regions an optional field holds; none for [None]. *)
Definition regions_of (regions : option (list BoundingRegion))
    : list BoundingRegion :=
  match regions with
  | Some items => items
  | None => []
  end.

(** The regions of a figure that are not among its caption's regions; all
    of them when there is no caption. *)
Definition body_regions (figure : DocumentFigure) : list BoundingRegion :=
  match figure_caption figure with
  | Some caption =>
      filter (fun region =>
                negb (region_in region
                        (regions_of (caption_bounding_regions caption))))
             (regions_of (figure_bounding_regions figure))
  | None => regions_of (figure_bounding_regions figure)
  end.

(** The caption text of a figure; empty when there is no caption. *)
Definition caption_text (figure : DocumentFigure) : string :=
  match figure_caption figure with
  | Some caption => caption_content caption
  | None => EmptyString
  end.

(** [polygon] has the numbers [a], [b], [c], [d] at positions 0, 1, 4, 5. *)
Definition box_of_polygon (polygon : list float) (box : BoundingBox) : Prop :=
  exists a b c d,
    nth_error polygon 0 = Some a /\ nth_error polygon 1 = Some b /\
    nth_error polygon 4 = Some c /\ nth_error polygon 5 = Some d /\
    box = (a, b, c, d).

(** What the regions [regions], described under the caption [caption]
    for figure file [file_name], leave in a trace: per region, in order,
    one crop of its box on its page, one saved file, one invocation of
    the description client and one chat request built from the caption. *)
Definition regions_described (input_file_path file_name caption : string)
    (regions : list BoundingRegion) (t : list event) : Prop :=
  Forall2 (fun region c =>
             exists box, box_of_polygon (polygon region) box /\
                         c = (input_file_path, page_number region - 1, box))
          regions (crop_calls t) /\
  saved_files t = map (fun _ => file_name) regions /\
  understand_calls t = map (fun _ => (file_name, caption)) regions /\
  Forall2 (fun _ messages =>
             exists data_url, messages = chat_messages caption data_url)
          regions (chat_requests t).

(** The events of the analysis that opens a completed run. *)
Definition analysis_events
    (input_file_path doc_intelligence_endpoint doc_intelligence_key : string)
    (client : LayoutClient) (f : BinaryFile) (poller : Poller)
    (result : AnalyzeResult) : list event :=
  [ Called (DocumentIntelligenceClient doc_intelligence_endpoint
              doc_intelligence_key
              [("x-ms-useragent", "sample-code-figure-understanding/1.0.0")])
      (inr client);
    Called (open_rb input_file_path) (inr f);
    Called (begin_analyze_document client "prebuilt-layout" f
              "application/octet-stream" MARKDOWN) (inr poller);
    Called (file_exit f) (inr tt);
    Called (Poller_result poller) (inr result) ].

(** A run of the figure loop that completes: from history [h], figures
    numbered from [i] on turn the markdown [md] into [md'], each figure
    adding its own segment to the trace and leaving its own markdown. *)
Inductive figures_run (step : Z * DocumentFigure -> string -> M string)
    (w : oracle) :
    list event -> Z -> list DocumentFigure -> string ->
    list (list event) -> list string -> string -> Prop :=
| figures_run_nil h i md : figures_run step w h i [] md [] [] md
| figures_run_cons h i figure figures md seg md1 segs mds md' :
    step (i, figure) md w h = (inr md1, seg) ->
    figures_run step w (h ++ seg) (i + 1) figures md1 segs mds md' ->
    figures_run step w h i (figure :: figures) md (seg :: segs) (md1 :: mds) md'.

End Traces.

(** Formats in which one file can hold several frames; the list names
    the common ones and is not complete. *)
Definition multi_frame_formats : list string := ["TIFF"; "GIF"; "WEBP"].

(** ** Paths and media types on a POSIX platform

    What [posixpath] and [mimetypes] of Python's standard library do with
    a path, for the small world below to answer with. *)

Module Posix.

(** [s.rfind(c)] for a character [c]: its last position in [s]. *)
Fixpoint rfind (c : ascii) (s : string) : option nat :=
  match s with
  | EmptyString => None
  | String a s' =>
      match rfind c s' with
      | Some i => Some (S i)
      | None => if Ascii.eqb a c then Some 0%nat else None
      end
  end.

(** Where the last component of a path begins: behind its last slash. *)
Definition component_start (p : string) : nat :=
  match rfind "/" p with
  | Some i => S i
  | None => 0%nat
  end.

(** [posixpath.basename(p)]. *)
Definition basename (p : string) : string :=
  substring (component_start p) (String.length p - component_start p) p.

Definition all_dots (s : string) : bool :=
  forallb (Ascii.eqb ".") (list_ascii_of_string s).

(** [posixpath.splitext(p)]: the extension begins at the last dot of the
    last component, unless nothing but dots comes before that dot in the
    component; a component such as [.png] has no extension. *)
Definition splitext (p : string) : string * string :=
  match rfind "." p with
  | Some dot =>
      if (component_start p <=? dot)%nat
         && negb (all_dots (substring (component_start p)
                              (dot - component_start p) p))
      then (substring 0 dot p, substring dot (String.length p - dot) p)
      else (p, EmptyString)
  | None => (p, EmptyString)
  end.

(** [posixpath.join(a, b)]. *)
Definition join (a b : string) : string :=
  if prefix "/" b then b
  else if String.eqb a EmptyString || PyStr.endswith a "/" then a ++ b
  else a ++ "/" ++ b.

(** A few entries of the table of [mimetypes]. *)
Definition types_map : list (string * string) :=
  [ (".png", "image/png"); (".pdf", "application/pdf");
    (".tif", "image/tiff"); (".tiff", "image/tiff"); (".gif", "image/gif") ].

(** [mimetypes.guess_type(path)] for a path in lower case that names no
    URL scheme and no compressed file: the entry of the table for the
    extension that [splitext] finds, and no encoding. *)
Definition guess_type (path : string) : option string * option string :=
  let ext := snd (splitext path) in
  (option_map snd (find (fun entry => String.eqb (fst entry) ext) types_map),
   None).

End Posix.

(** ** A small world to run the module in

    Images are known by their format, documents and files by their path,
    pages by their number.  Every call succeeds; the analyzer always
    reports the same three figures. *)

Module Demo.

Definition format_of (path : string) : option string :=
  if PyStr.endswith path ".png" then Some "PNG"
  else if PyStr.endswith path ".tif" then Some "TIFF"
  else if PyStr.endswith path ".gif" then Some "GIF"
  else None.

#[global] Instance libraries : Libraries := {|
  PILImage := option string;
  image_format := fun img => img;
  Document := string;
  Page := Z;
  BinaryFile := string;
  OpenAIClient := unit;
  LayoutClient := unit;
  Poller := unit;
  guess_type := Posix.guess_type;
  basename := Posix.basename;
  splitext := Posix.splitext;
  path_join := Posix.join;
  convert_markdown_headings := fun md => md
|}.

(** An image read from a file of the given format, and an image made
    from another one, which has no format. *)
Definition image_of (format : string) : PILImage := Some format.
Definition derived : PILImage := None.

(** The file object of an open file. *)
Definition file_at (path : string) : BinaryFile := path.

Definition square : BoundingRegion :=
  {| page_number := 1;
     polygon := [0; 0; 2; 0; 2; 2; 0; 2]%float |}.

Definition photo : BoundingRegion :=
  {| page_number := 2;
     polygon := [1; 1.5; 4; 1.5; 4; 3; 1; 3]%float |}.

Definition legend : BoundingRegion :=
  {| page_number := 2;
     polygon := [1; 3; 4; 3; 4; 3.5; 1; 3.5]%float |}.

Definition legend_caption : DocumentCaption :=
  {| caption_content := "Fig. 1";
     caption_bounding_regions := Some [legend] |}.

Definition figures : list DocumentFigure :=
  [ {| figure_caption := None; figure_bounding_regions := Some [square] |};
    {| figure_caption := Some legend_caption;
       figure_bounding_regions := Some [photo; legend] |};
    {| figure_caption := Some legend_caption;
       figure_bounding_regions := Some [legend] |} ].

Definition markdown : string :=
  "<figure>![](figures/0)chart</figure>" ++
  "<figure>![](figures/1)photo Fig. 1</figure>" ++
  "<figure>![](figures/2)Fig. 1</figure>".

Definition result : AnalyzeResult :=
  {| result_content := markdown; result_figures := Some figures |}.

Definition world : oracle :=
  fun _ A c =>
    match c in call A return exception + A with
    | Image_open fp => inr (format_of fp)
    | Image_seek _ _ => inr tt
    | Image_copy _ => inr None
    | Image_crop _ _ => inr None
    | Image_exit _ => inr tt
    | Image_frombytes _ _ _ => inr None
    | Image_save _ _ => inr tt
    | fitz_open filename => inr filename
    | Document_load_page _ page_id => inr page_id
    | Page_get_pixmap _ _ _ =>
        inr {| width := 600; height := 600; samples := [] |}
    | Document_close _ => inr tt
    | open_rb file => inr file
    | file_read _ => inr (list_byte_of_string "Man")
    | file_exit _ => inr tt
    | AzureOpenAI _ _ _ => inr tt
    | chat_completions_create _ _ _ _ => inr {| choices := [Some "a chart"] |}
    | DocumentIntelligenceClient _ _ _ => inr tt
    | begin_analyze_document _ _ _ _ _ => inr tt
    | Poller_result _ => inr result
    end.

(** The pipeline on [doc.pdf], with crops written to [out]. *)
Definition run : (exception + string) * list event :=
  analyze_layout "doc.pdf" "out" "https://layout" "key1"
    "https://chat" "key2" "gpt" "2024-02-01" world [].

(** The same world, except that no page can be loaded. *)
Definition no_page : oracle :=
  fun h A c =>
    match c in call A return exception + A with
    | Document_load_page _ _ => inl (Raised "page not in document")
    | c' => world h _ c'
    end.

(** The same world, except that completions come without choices. *)
Definition no_choice : oracle :=
  fun h A c =>
    match c in call A return exception + A with
    | chat_completions_create _ _ _ _ => inr {| choices := [] |}
    | c' => world h _ c'
    end.

(** A region whose polygon was cut short. *)
Definition stub : BoundingRegion :=
  {| page_number := 1; polygon := [0; 0; 2; 0]%float |}.

(** A figure in two parts, without a caption. *)
Definition two_parts : DocumentFigure :=
  {| figure_caption := None; figure_bounding_regions := Some [square; photo] |}.

(** A figure whose bounding regions are missing, and a caption whose
    bounding regions are missing. *)
Definition no_regions : DocumentFigure :=
  {| figure_caption := None; figure_bounding_regions := None |}.

Definition bare_caption : DocumentCaption :=
  {| caption_content := "Fig. 2"; caption_bounding_regions := None |}.

(** The same world, except that completions come with a first choice
    that has no content. *)
Definition no_content : oracle :=
  fun h A c =>
    match c in call A return exception + A with
    | chat_completions_create _ _ _ _ => inr {| choices := [None] |}
    | c' => world h _ c'
    end.

(** What that run returns and what it leaves in the trace. *)
Definition returned : string :=
  match fst run with
  | inr md => md
  | inl _ => EmptyString
  end.

Definition trace : list event := snd run.

End Demo.

(** ** Facts about strings *)

Section StringFacts.

Local Open Scope nat_scope.

Lemma length_substring (s : string) : forall n m,
  String.length (substring n m s) = Nat.min m (String.length s - n).
Proof.
  induction s as [|c s IH]; intros [|n] [|m]; simpl;
    rewrite ?IH; simpl; lia.
Qed.

Lemma substring_all (s : string) : substring 0 (String.length s) s = s.
Proof. induction s as [|c s IH]; simpl; [reflexivity | now rewrite IH]. Qed.

Lemma substring_split (s : string) : forall n,
  (substring 0 n s ++ substring n (String.length s - n) s)%string = s.
Proof.
  induction s as [|c s IH]; intros [|n]; simpl; try reflexivity.
  - f_equal. apply substring_all.
  - f_equal. apply IH.
Qed.

Lemma index_lower_bound (sub s : string) : forall n m,
  index n sub s = Some m -> n <= m.
Proof.
  induction s as [|c s IH]; intros [|n] m; simpl; try lia; try discriminate.
  destruct (index n sub s) as [k|] eqn:E; [|discriminate].
  intros [= <-]. apply IH in E. lia.
Qed.

Lemma occurrence_in_bounds (sub s : string) (i : nat) :
  sub <> EmptyString -> substring i (String.length sub) s = sub ->
  i + String.length sub <= String.length s.
Proof.
  intros Hne H.
  assert (L : String.length (substring i (String.length sub) s) = String.length sub)
    by now rewrite H.
  rewrite length_substring in L.
  destruct sub as [|c sub]; [congruence|]. cbn [String.length] in *. lia.
Qed.

Lemma index_first_occurrence (sub s : string) (n m : nat) :
  sub <> EmptyString -> index n sub s = Some m ->
  PyStr.first_occurrence_from sub s n m.
Proof.
  intros Hne H. repeat split.
  - eapply index_lower_bound; eauto.
  - apply occurrence_in_bounds; [assumption|]. eapply index_correct1; eauto.
  - eapply index_correct1; eauto.
  - intros j Hj [_ Hoc]. revert Hoc. eapply index_correct2; eauto; lia.
Qed.

Lemma index_none_no_occurrence (sub s : string) (n j : nat) :
  sub <> EmptyString -> index n sub s = None -> n <= j ->
  ~ PyStr.occurs_at sub s j.
Proof.
  intros Hne H Hj [_ Hoc]. revert Hoc. eapply index_correct3; eauto.
Qed.

Lemma first_occurrence_unique (sub s : string) (n i j : nat) :
  PyStr.first_occurrence_from sub s n i ->
  PyStr.first_occurrence_from sub s n j -> i = j.
Proof.
  intros (Hi & Oi & Mi) (Hj & Oj & Mj).
  destruct (Nat.lt_trichotomy i j) as [L|[E|L]]; [|assumption|].
  - exfalso. apply (Mj i); [lia | assumption].
  - exfalso. apply (Mi j); [lia | assumption].
Qed.

End StringFacts.

(** ** The patcher meets its contract *)

Section Patcher.

Local Open Scope nat_scope.

Lemma find_from_nat (s sub : string) (n : nat) :
  PyStr.find s sub (Z.of_nat n) =
  match index n sub s with Some i => Z.of_nat i | None => (-1)%Z end.
Proof.
  unfold PyStr.find.
  destruct (Z.ltb_spec (Z.of_nat n) 0) as [H|_]; [lia|].
  now rewrite Nat2Z.id.
Qed.

Lemma index_of_first_occurrence (sub s : string) (n i : nat) :
  sub <> EmptyString -> PyStr.first_occurrence_from sub s n i ->
  index n sub s = Some i.
Proof.
  intros Hne Hi. destruct (index n sub s) as [m|] eqn:E.
  - f_equal. eapply first_occurrence_unique; [|exact Hi].
    now apply index_first_occurrence.
  - exfalso. destruct Hi as (Hn & Hoc & _).
    now apply (index_none_no_occurrence sub s n i Hne E Hn).
Qed.

Lemma index_none_iff (sub s : string) (n : nat) :
  sub <> EmptyString ->
  index n sub s = None <-> forall j, n <= j -> ~ PyStr.occurs_at sub s j.
Proof.
  intros Hne. split.
  - intros E j Hj. now apply (index_none_no_occurrence sub s n j).
  - intros H. destruct (index n sub s) as [m|] eqn:E; [|reflexivity].
    exfalso. destruct (index_first_occurrence sub s n m Hne E) as (Hn & Hoc & _).
    now apply (H m).
Qed.

Lemma start_substring_nonempty (idx : Z) : start_substring idx <> EmptyString.
Proof. unfold start_substring. simpl. discriminate. Qed.

Lemma end_substring_nonempty : end_substring <> EmptyString.
Proof. discriminate. Qed.

Lemma slice_to_nat (s : string) (n : nat) :
  n <= String.length s -> PyStr.slice_to s (Z.of_nat n) = substring 0 n s.
Proof.
  intros H. unfold PyStr.slice_to, PyStr.clamp, PyStr.len.
  destruct (Z.ltb_spec (Z.of_nat n) 0) as [H0|_]; [lia|].
  f_equal. lia.
Qed.

Lemma slice_from_nat (s : string) (n : nat) :
  n <= String.length s ->
  PyStr.slice_from s (Z.of_nat n) = substring n (String.length s - n) s.
Proof.
  intros H. unfold PyStr.slice_from, PyStr.clamp, PyStr.len.
  destruct (Z.ltb_spec (Z.of_nat n) 0) as [H0|_]; [lia|].
  replace (Z.to_nat (Z.min (Z.of_nat n) (Z.of_nat (String.length s)))) with n by lia.
  reflexivity.
Qed.

(** What the patcher computes, by the outcome of its two searches. *)
Lemma update_figure_description_cases (md desc : string) (idx : Z) :
  match index 0 (start_substring idx) md with
  | None => update_figure_description md desc idx = md
  | Some p =>
      let e := p + String.length (start_substring idx) in
      match index e end_substring md with
      | None => update_figure_description md desc idx = md
      | Some q =>
          update_figure_description md desc idx =
          (substring 0 e md ++ new_string desc
             ++ substring q (String.length md - q) md)%string
      end
  end.
Proof.
  unfold update_figure_description.
  change 0%Z with (Z.of_nat 0). rewrite find_from_nat.
  destruct (index 0 (start_substring idx) md) as [p|] eqn:E; [|reflexivity].
  destruct (Z.eqb_spec (Z.of_nat p) (-1)) as [H|_]; [lia|]. cbn [negb].
  unfold PyStr.len. rewrite <- Nat2Z.inj_add, find_from_nat.
  cbv zeta.
  destruct (index (p + String.length (start_substring idx)) end_substring md)
    as [q|] eqn:F.
  - destruct (Z.eqb_spec (Z.of_nat q) (-1)) as [H|_]; [lia|]. cbn [negb].
    destruct (index_first_occurrence _ _ _ _ (start_substring_nonempty idx) E)
      as (_ & [Hb _] & _).
    destruct (index_first_occurrence _ _ _ _ end_substring_nonempty F)
      as (_ & [Hq _] & _).
    rewrite slice_to_nat by lia. rewrite slice_from_nat by lia. reflexivity.
  - reflexivity.
Qed.

Lemma substring_add (s : string) : forall n a b,
  substring n (a + b) s = (substring n a s ++ substring (n + a) b s)%string.
Proof.
  induction s as [|c s IH]; intros n a b.
  - destruct n, a, b; reflexivity.
  - destruct n as [|n].
    + destruct a as [|a]; [reflexivity|].
      cbn [Nat.add substring append]. f_equal. apply (IH 0).
    + cbn [Nat.add substring]. apply IH.
Qed.

(** The span between the placeholder and the closing tag gives way to the
    annotation; the text around it stays. *)
Lemma placeholder_span_replaced
    (md desc : string) (idx : Z) (p : nat) :
  PyStr.first_occurrence_from (start_substring idx) md 0 p ->
  (exists j, p + String.length (start_substring idx) <= j /\
             PyStr.occurs_at "</figure>" md j) ->
  exists q,
    PyStr.first_occurrence_from "</figure>" md
      (p + String.length (start_substring idx)) q /\
    start_substring idx = ("![](figures/" ++ PyStr.str idx ++ ")")%string /\
    update_figure_description md desc idx =
      (substring 0 (p + String.length (start_substring idx)) md
         ++ ("<!-- FigureContent=" ++ PyStr.dquote ++ desc ++ PyStr.dquote ++ " -->")
         ++ substring q (String.length md - q) md)%string /\
    md =
      (substring 0 (p + String.length (start_substring idx)) md
         ++ substring (p + String.length (start_substring idx))
              (q - (p + String.length (start_substring idx))) md
         ++ substring q (String.length md - q) md)%string.
Proof.
  set (e := p + String.length (start_substring idx)).
  intros Hp (j & Hj & Hoc).
  pose proof (update_figure_description_cases md desc idx) as C.
  rewrite (index_of_first_occurrence _ _ _ _ (start_substring_nonempty idx) Hp) in C.
  cbv zeta in C. fold e in C.
  destruct (index e end_substring md) as [q|] eqn:F.
  - pose proof (index_first_occurrence _ _ _ _ end_substring_nonempty F) as Hq.
    exists q. split; [exact Hq|]. split; [reflexivity|]. split; [exact C|].
    destruct Hq as (Heq & [Hb _] & _).
    change (String.length end_substring) with 9 in Hb.
    replace (substring q (String.length md - q) md)
      with (substring (e + (q - e)) (String.length md - q) md)
      by (f_equal; lia).
    rewrite <- substring_add.
    replace (q - e + (String.length md - q)) with (String.length md - e) by lia.
    symmetry. apply substring_split.
  - exfalso.
    apply (index_none_no_occurrence _ _ _ j end_substring_nonempty F Hj Hoc).
Qed.

(** C1: when the placeholder of figure [idx] first occurs at [p] and a
    closing tag occurs somewhere at or after the placeholder's end [e],
    the patcher returns the text up to [e], then the annotation holding
    the description, then the text from the first closing tag at or after
    [e] onward; the input is that same prefix and suffix around the
    replaced span, so nothing else changes. *)
Theorem update_figure_description_replaces_span
    (md desc : string) (idx : Z) (p : nat) :
  PyStr.first_occurrence_from (start_substring idx) md 0 p ->
  (exists j, p + String.length (start_substring idx) <= j /\
             PyStr.occurs_at "</figure>" md j) ->
  exists q,
    PyStr.first_occurrence_from "</figure>" md
      (p + String.length (start_substring idx)) q /\
    start_substring idx = ("![](figures/" ++ PyStr.str idx ++ ")")%string /\
    update_figure_description md desc idx =
      (substring 0 (p + String.length (start_substring idx)) md
         ++ ("<!-- FigureContent=" ++ PyStr.dquote ++ desc ++ PyStr.dquote ++ " -->")
         ++ substring q (String.length md - q) md)%string /\
    md =
      (substring 0 (p + String.length (start_substring idx)) md
         ++ substring (p + String.length (start_substring idx))
              (q - (p + String.length (start_substring idx))) md
         ++ substring q (String.length md - q) md)%string.
Proof. apply placeholder_span_replaced. Qed.

(** C2: the patcher returns its input when the placeholder of figure
    [idx] occurs nowhere, and also when the placeholder occurs but no
    closing tag occurs at or after the end of its first occurrence.  The
    patcher is a total function on strings: neither case fails. *)
Theorem update_figure_description_noop (md desc : string) (idx : Z) :
  ((forall i, ~ PyStr.occurs_at ("![](figures/" ++ PyStr.str idx ++ ")") md i) ->
   update_figure_description md desc idx = md) /\
  (forall p,
     PyStr.first_occurrence_from ("![](figures/" ++ PyStr.str idx ++ ")") md 0 p ->
     (forall j, p + String.length ("![](figures/" ++ PyStr.str idx ++ ")") <= j ->
                ~ PyStr.occurs_at "</figure>" md j) ->
     update_figure_description md desc idx = md).
Proof.
  fold (start_substring idx). fold end_substring.
  pose proof (update_figure_description_cases md desc idx) as C.
  split.
  - intros H.
    assert (E : index 0 (start_substring idx) md = None).
    { apply index_none_iff; [apply start_substring_nonempty|]. intros i _. apply H. }
    now rewrite E in C.
  - intros p Hp H.
    rewrite (index_of_first_occurrence _ _ _ _ (start_substring_nonempty idx) Hp) in C.
    cbv zeta in C.
    assert (E : index (p + String.length (start_substring idx)) end_substring md = None).
    { apply index_none_iff; [apply end_substring_nonempty | exact H]. }
    now rewrite E in C.
Qed.

End Patcher.

(** ** Base64 round trip *)

Section Base64Facts.

Import Base64.

Example b64encode_Man :
  b64encode (list_byte_of_string "Man") = list_byte_of_string "TWFu".
Proof. reflexivity. Qed.

Example b64encode_Ma :
  b64encode (list_byte_of_string "Ma") = list_byte_of_string "TWE=".
Proof. reflexivity. Qed.

Example b64encode_M :
  b64encode (list_byte_of_string "M") = list_byte_of_string "TQ==".
Proof. reflexivity. Qed.

Lemma decode_encode_sextet (s : sextet) : decode_char (encode_sextet s) = Some s.
Proof.
  destruct s as [[[[[b5 b4] b3] b2] b1] b0].
  destruct b5, b4, b3, b2, b1, b0; reflexivity.
Qed.

Lemma encode_sextet_not_pad (s : sextet) : Byte.eqb (encode_sextet s) pad = false.
Proof.
  destruct s as [[[[[b5 b4] b3] b2] b1] b0].
  destruct b5, b4, b3, b2, b1, b0; reflexivity.
Qed.

(** Induction on a list, three elements at a time. *)
Lemma list_ind3 {A} (P : list A -> Prop) :
  P [] -> (forall x, P [x]) -> (forall x y, P [x; y]) ->
  (forall x y z rest, P rest -> P (x :: y :: z :: rest)) ->
  forall l, P l.
Proof.
  intros H0 H1 H2 H3.
  assert (G : forall l, P l /\ (forall x, P (x :: l)) /\
                        (forall x y, P (x :: y :: l))).
  { induction l as [|a l (IH0 & IH1 & IH2)]; repeat split; auto. }
  intros l. apply G.
Qed.

(** Replaces a byte by the byte made of its eight bits. *)
Ltac bits_of x :=
  let H := fresh "H" in
  pose proof (Byte.of_bits_to_bits x) as H;
  destruct (Byte.to_bits x) as (? & ? & ? & ? & ? & ? & ? & ?);
  rewrite <- H; clear H.

Lemma b64decode_b64encode (s : list byte) : b64decode (b64encode s) = Some s.
Proof.
  induction s as [|x|x y|x y z rest IH] using list_ind3.
  - reflexivity.
  - cbn [b64encode]. unfold encode1. bits_of x.
    cbn [b64decode]. rewrite !decode_encode_sextet. reflexivity.
  - cbn [b64encode]. unfold encode2. bits_of x. bits_of y.
    cbn [b64decode]. rewrite !decode_encode_sextet.
    rewrite encode_sextet_not_pad. reflexivity.
  - cbn [b64encode]. unfold encode3. bits_of x. bits_of y. bits_of z.
    cbn [app b64decode]. rewrite !decode_encode_sextet.
    rewrite encode_sextet_not_pad, IH. reflexivity.
Qed.

End Base64Facts.

(** ** Facts about computations *)

Section Computations.

Context {L : Libraries}.

Local Open Scope list_scope.

Lemma pick_app {B} (f : event -> option B) (t t' : list event) :
  pick f (t ++ t') = pick f t ++ pick f t'.
Proof. apply flat_map_app. Qed.

Lemma ret_ok {A} (a b : A) w h t :
  ret a w h = (inr b, t) -> b = a /\ t = [].
Proof. unfold ret. intros [= <- <-]. now split. Qed.

Lemma ext_ok {A} (c : call A) (a : A) w h t :
  ext c w h = (inr a, t) -> w h A c = inr a /\ t = [Called c (inr a)].
Proof.
  unfold ext. intros [= E <-]. split; [exact E|]. now rewrite E.
Qed.

Lemma bind_ok {A B} (m : M A) (k : A -> M B) (b : B) w h t :
  bind m k w h = (inr b, t) ->
  exists a t1 t2,
    m w h = (inr a, t1) /\ k a w (h ++ t1) = (inr b, t2) /\ t = t1 ++ t2.
Proof.
  unfold bind. destruct (m w h) as [[e|a] t1]; [discriminate|].
  destruct (k a w (h ++ t1)) as [r t2] eqn:E. intros [= -> <-].
  now exists a, t1, t2.
Qed.

Lemma with_ok {A B} (enter_ : M A) (exit_ : A -> M unit) (body : A -> M B)
    (b : B) w h t :
  with_ enter_ exit_ body w h = (inr b, t) ->
  exists x t1 t2 t3,
    enter_ w h = (inr x, t1) /\
    body x w (h ++ t1) = (inr b, t2) /\
    exit_ x w ((h ++ t1) ++ t2) = (inr tt, t3) /\
    t = t1 ++ t2 ++ t3.
Proof.
  unfold with_. intros H. apply bind_ok in H as (x & t1 & t23 & E1 & E2 & ->).
  destruct (body x w (h ++ t1)) as [r t2] eqn:Eb.
  destruct (exit_ x w ((h ++ t1) ++ t2)) as [[e|[]] t3] eqn:Ex; [discriminate|].
  injection E2 as -> <-. now exists x, t1, t2, t3.
Qed.

Lemma getitem_ok {A} (l : list A) (i : nat) (a : A) w h t :
  getitem l i w h = (inr a, t) -> nth_error l i = Some a /\ t = [].
Proof.
  unfold getitem. destruct (nth_error l i) as [x|]; [|discriminate].
  intros H. apply ret_ok in H as [-> ->]. now split.
Qed.

Lemma bind_ret_l {A B} (a : A) (k : A -> M B) w h :
  bind (ret a) k w h = k a w (h ++ []).
Proof. unfold bind, ret. now destruct (k a w (h ++ [])). Qed.

Lemma bind_eq {A B} (m : M A) (k : A -> M B) w h a t1 r t2 :
  m w h = (inr a, t1) -> k a w (h ++ t1) = (r, t2) ->
  bind m k w h = (r, t1 ++ t2).
Proof. unfold bind. now intros -> ->. Qed.

Lemma iter_ok {A} (l : option (list A)) (items : list A) w h t :
  iter l w h = (inr items, t) -> l = Some items /\ t = [].
Proof.
  unfold iter. destruct l as [x|]; [|discriminate].
  intros H. apply ret_ok in H as [-> ->]. now split.
Qed.

Lemma contains_ok (region : BoundingRegion)
    (regions : option (list BoundingRegion)) (found : bool) w h t :
  contains region regions w h = (inr found, t) ->
  exists items,
    regions = Some items /\ found = region_in region items /\ t = [].
Proof.
  unfold contains. destruct regions as [items|]; [|discriminate].
  intros H. apply ret_ok in H as [-> ->]. now exists items.
Qed.

Lemma iadd_ok (description : string) (text : option string) (sum : string)
    w h t :
  iadd description text w h = (inr sum, t) ->
  exists s, text = Some s /\ sum = (description ++ s)%string /\ t = [].
Proof.
  unfold iadd. destruct text as [s|]; [|discriminate].
  intros H. apply ret_ok in H as [-> ->]. now exists s.
Qed.

(** *** Computations that stay silent *)

Lemma silent_ret {A B} (f : event -> option B) (a : A) : silent f (ret a).
Proof. intros w h. reflexivity. Qed.

Lemma silent_raise {A B} (f : event -> option B) (e : exception) :
  silent f (@raise L A e).
Proof. intros w h. reflexivity. Qed.

Lemma silent_ext {A B} (f : event -> option B) (c : call A) :
  (forall r, f (Called c r) = None) -> silent f (ext c).
Proof. intros H w h. unfold ext, pick. cbn. now rewrite H. Qed.

Lemma silent_bind {A B C} (f : event -> option C) (m : M A) (k : A -> M B) :
  silent f m -> (forall a, silent f (k a)) -> silent f (bind m k).
Proof.
  intros Hm Hk w h. unfold bind. specialize (Hm w h).
  destruct (m w h) as [[e|a] t1]; [exact Hm|].
  specialize (Hk a w (h ++ t1)). destruct (k a w (h ++ t1)) as [r t2].
  cbn [snd] in *. now rewrite pick_app, Hm, Hk.
Qed.

Lemma silent_with {A B C} (f : event -> option C)
    (enter_ : M A) (exit_ : A -> M unit) (body : A -> M B) :
  silent f enter_ -> (forall x, silent f (exit_ x)) ->
  (forall x, silent f (body x)) -> silent f (with_ enter_ exit_ body).
Proof.
  intros He Hx Hb. unfold with_. apply silent_bind; [exact He|].
  intros x w h. specialize (Hb x w h). destruct (body x w h) as [r t].
  specialize (Hx x w (h ++ t)). destruct (exit_ x w (h ++ t)) as [[e|u] t'];
    cbn [snd] in *; now rewrite pick_app, Hb, Hx.
Qed.

Lemma silent_getitem {A B} (f : event -> option B) (l : list A) (i : nat) :
  silent f (getitem l i).
Proof.
  unfold getitem. destruct (nth_error l i); [apply silent_ret | apply silent_raise].
Qed.

(** *** Computations whose events of one kind all satisfy a property *)

Lemma silent_picks_only {A B} (f : event -> option B) (P : B -> Prop) (m : M A) :
  silent f m -> picks_only f P m.
Proof. intros H w h. rewrite H. constructor. Qed.

Lemma picks_only_ext {A B} (f : event -> option B) (P : B -> Prop) (c : call A) :
  (forall r b, f (Called c r) = Some b -> P b) -> picks_only f P (ext c).
Proof.
  intros H w h. unfold ext, pick. cbn.
  destruct (f (Called c (w h A c))) as [b|] eqn:E; repeat constructor.
  eapply H, E.
Qed.

Lemma picks_only_bind {A B C} (f : event -> option C) (P : C -> Prop)
    (m : M A) (k : A -> M B) :
  picks_only f P m -> (forall a, picks_only f P (k a)) ->
  picks_only f P (bind m k).
Proof.
  intros Hm Hk w h. unfold bind. specialize (Hm w h).
  destruct (m w h) as [[e|a] t1]; [exact Hm|].
  specialize (Hk a w (h ++ t1)). destruct (k a w (h ++ t1)) as [r t2].
  cbn [snd] in *. rewrite pick_app. now apply Forall_app.
Qed.

End Computations.

(** Proves that a computation built from the combinators is [silent]. *)
Ltac hush :=
  repeat first
    [ apply silent_ret
    | apply silent_raise
    | apply silent_getitem
    | apply silent_ext; intros; reflexivity
    | apply silent_with; [|intros|intros]
    | apply silent_bind; [|intros]
    | match goal with
      | |- silent _ (if ?b then _ else _) => destruct b
      | |- silent _ (match ?x with _ => _ end) => destruct x
      end
    | progress unfold crop_image_from_image, crop_image_from_pdf_page,
        fitz_Rect, local_image_to_data_url, iter, contains, iadd ].

(** Closes a goal saying that a selector finds nothing in a trace. *)
Ltac quiet :=
  match goal with
  | |- pick ?f (snd (?m ?w ?h)) = [] =>
      let S := fresh "S" in
      assert (S : silent f m) by hush; exact (S w h)
  end.

(** ** Facts about the helpers *)

Section Helpers.

Context {L : Libraries}.

Local Open Scope list_scope.

Lemma pick_cons {B} (f : event -> option B) (e : event) (t : list event) :
  pick f (e :: t) =
  match f e with Some b => b :: pick f t | None => pick f t end.
Proof. unfold pick. cbn [flat_map]. now destruct (f e). Qed.

Lemma enter_then {A} (f : invocation) (k : unit -> M A) w h :
  snd (bind (enter f) k w h) = Entered f :: snd (k tt w (h ++ [Entered f])).
Proof.
  unfold bind, enter. destruct (k tt w (h ++ [Entered f])) as [r t]. reflexivity.
Qed.

(** Whatever the world answers, a call of [crop_image_from_file] leaves
    one note of itself, and saves nothing. *)
Lemma crop_image_from_file_notes path page box w h :
  let t := snd (crop_image_from_file path page box w h) in
  crop_calls t = [(path, page, box)] /\ understand_calls t = [] /\
  saved_files t = [] /\ chat_requests t = [].
Proof.
  cbv zeta. unfold crop_image_from_file. rewrite enter_then.
  unfold crop_calls, understand_calls, saved_files, chat_requests.
  rewrite !pick_cons. cbv beta iota.
  repeat split; [f_equal| | |]; quiet.
Qed.

Lemma boundingbox_ok region box w h t :
  boundingbox region w h = (inr box, t) ->
  box_of_polygon (polygon region) box /\ t = [].
Proof.
  unfold boundingbox. intros H.
  apply bind_ok in H as (a & ta & t1 & Ha & H & ->).
  apply bind_ok in H as (b & tb & t2 & Hb & H & ->).
  apply bind_ok in H as (c & tc & t3 & Hc & H & ->).
  apply bind_ok in H as (d & td & t4 & Hd & H & ->).
  apply ret_ok in H as [-> ->].
  apply getitem_ok in Ha as [Ha ->]. apply getitem_ok in Hb as [Hb ->].
  apply getitem_ok in Hc as [Hc ->]. apply getitem_ok in Hd as [Hd ->].
  split; [|reflexivity]. now exists a, b, c, d.
Qed.

End Helpers.

(** ** The two rasterizers *)

Section Rasterizers.

Context {L : Libraries}.

Local Open Scope list_scope.

Lemma is_str_true (value : option string) (name : string) :
  is_str value name = true <-> value = Some name.
Proof.
  unfold is_str. destruct value as [s|].
  - rewrite String.eqb_eq. split; [now intros -> | now intros [= ->]].
  - split; discriminate.
Qed.

Lemma crop_image_from_pdf_page_ok path page (l t r b : float) img w h tr :
  crop_image_from_pdf_page path page (l, t, r, b) w h = (inr img, tr) ->
  exists doc pg pix,
    tr = [ Called (fitz_open path) (inr doc);
           Called (Document_load_page doc page) (inr pg);
           Called (Page_get_pixmap pg
                     {| sx := (300 / 72)%float; sy := (300 / 72)%float |}
                     {| x0 := (l * 72)%float; y0 := (t * 72)%float;
                        x1 := (r * 72)%float; y1 := (b * 72)%float |})
             (inr pix);
           Called (Image_frombytes "RGB" (width pix, height pix) (samples pix))
             (inr img);
           Called (Document_close doc) (inr tt) ].
Proof.
  unfold crop_image_from_pdf_page. cbn [box_items map fitz_Rect]. intros H.
  apply bind_ok in H as (doc & t1 & ta & H1 & H & ->).
  apply ext_ok in H1 as [_ ->].
  apply bind_ok in H as (pg & t2 & tb & H2 & H & ->).
  apply ext_ok in H2 as [_ ->].
  apply bind_ok in H as (rect & t3 & tc & H3 & H & ->).
  apply ret_ok in H3 as [-> ->].
  apply bind_ok in H as (pix & t4 & td & H4 & H & ->).
  apply ext_ok in H4 as [_ ->].
  apply bind_ok in H as (im & t5 & te & H5 & H & ->).
  apply ext_ok in H5 as [_ ->].
  apply bind_ok in H as ([] & t6 & tf & H6 & H & ->).
  apply ext_ok in H6 as [_ ->].
  apply ret_ok in H as [-> ->].
  now exists doc, pg, pix.
Qed.

Lemma crop_image_from_image_ok path page box cropped w h tr :
  crop_image_from_image path page box w h = (inr cropped, tr) ->
  exists img,
    (image_format img = Some "TIFF" /\
     exists copy,
       tr = [ Called (Image_open path) (inr img);
              Called (Image_seek img page) (inr tt);
              Called (Image_copy img) (inr copy);
              Called (Image_crop copy box) (inr cropped);
              Called (Image_exit img) (inr tt) ]) \/
    (image_format img <> Some "TIFF" /\
     tr = [ Called (Image_open path) (inr img);
            Called (Image_crop img box) (inr cropped);
            Called (Image_exit img) (inr tt) ]).
Proof.
  unfold crop_image_from_image. intros H.
  apply with_ok in H as (img & to & tb & tx & Ho & Hb & Hx & ->).
  apply ext_ok in Ho as [_ ->]. apply ext_ok in Hx as [_ ->].
  exists img.
  apply bind_ok in Hb as (img' & t1 & ta & H1 & H & ->).
  apply bind_ok in H as (c & t2 & tc & H2 & H & ->).
  apply ext_ok in H2 as [_ ->]. apply ret_ok in H as [-> ->].
  destruct (is_str (image_format img) "TIFF") eqn:F.
  - left. apply is_str_true in F. split; [exact F|].
    apply bind_ok in H1 as ([] & t3 & td & H3 & H & ->).
    apply ext_ok in H3 as [_ ->]. apply ext_ok in H as [_ ->].
    now exists img'.
  - right. split.
    + intros E. apply is_str_true in E. congruence.
    + apply ret_ok in H1 as [-> ->]. reflexivity.
Qed.

(** Destructs the answers of the world one call after the other. *)
Ltac answers w :=
  repeat match goal with
         | |- context [w ?h ?A ?c] => destruct (w h A c); cbn
         end.

Lemma pdf_requests_any_outcome path page (l t r b : float) w h :
  incl (pixmap_requests (snd (crop_image_from_pdf_page path page (l, t, r, b) w h)))
    [ ({| sx := (300 / 72)%float; sy := (300 / 72)%float |},
       {| x0 := (l * 72)%float; y0 := (t * 72)%float;
          x1 := (r * 72)%float; y1 := (b * 72)%float |}) ].
Proof.
  unfold crop_image_from_pdf_page, bind, ext, ret, pixmap_requests, pick.
  cbn. answers w; auto using incl_nil_l, incl_refl.
Qed.

Lemma image_crops_any_outcome path page box w h :
  incl (crop_boxes (snd (crop_image_from_image path page box w h))) [box].
Proof.
  unfold crop_image_from_image, with_, bind, ext, ret, crop_boxes, pick.
  cbn. destruct (w h PILImage (Image_open path)) as [e|img]; cbn;
    [apply incl_nil_l|].
  destruct (is_str (image_format img) "TIFF"); cbn; answers w;
    auto using incl_nil_l, incl_refl.
Qed.

(** C3: the PDF rasterizer asks the renderer for the clip rectangle whose
    four numbers are those of the box times 72, under the scale matrix
    300/72 by 300/72: that is the only request it ever makes, and a run
    that returns makes it once.  The raster rasterizer hands the box to
    the crop as it received it: that is the only box it ever crops to, and
    a run that returns crops once. *)
Theorem box_scaled_for_pdf_only
    (path : string) (page : Z) (l t r b : float) (w : oracle) (h : list event) :
  incl (pixmap_requests
          (snd (crop_image_from_pdf_page path page (l, t, r, b) w h)))
    [ ({| sx := (300 / 72)%float; sy := (300 / 72)%float |},
       {| x0 := (l * 72)%float; y0 := (t * 72)%float;
          x1 := (r * 72)%float; y1 := (b * 72)%float |}) ] /\
  (forall img tr,
     crop_image_from_pdf_page path page (l, t, r, b) w h = (inr img, tr) ->
     pixmap_requests tr =
       [ ({| sx := (300 / 72)%float; sy := (300 / 72)%float |},
          {| x0 := (l * 72)%float; y0 := (t * 72)%float;
             x1 := (r * 72)%float; y1 := (b * 72)%float |}) ] /\
     crop_boxes tr = []) /\
  incl (crop_boxes (snd (crop_image_from_image path page (l, t, r, b) w h)))
    [ (l, t, r, b) ] /\
  (forall img tr,
     crop_image_from_image path page (l, t, r, b) w h = (inr img, tr) ->
     crop_boxes tr = [ (l, t, r, b) ] /\ pixmap_requests tr = []).
Proof.
  split; [apply pdf_requests_any_outcome|].
  split.
  { intros img tr H. apply crop_image_from_pdf_page_ok in H as (doc & pg & pix & ->).
    split; reflexivity. }
  split; [apply image_crops_any_outcome|].
  intros img tr H.
  apply crop_image_from_image_ok in H as (im & [(_ & copy & ->)|(_ & ->)]);
    split; reflexivity.
Qed.

(** C9, as the code has it: a run of the raster rasterizer that returns
    opened an image; when the format of that image is TIFF it sought the
    page, copied the frame, cropped the copy and closed the image; for
    every other format it cropped the opened image and closed it, with no
    seek and no copy. *)
Theorem crop_image_from_image_seeks_tiff_only
    (path : string) (page : Z) (box : BoundingBox) (w : oracle)
    (h : list event) (cropped : PILImage) (tr : list event) :
  crop_image_from_image path page box w h = (inr cropped, tr) ->
  exists img,
    (image_format img = Some "TIFF" /\
     exists copy,
       tr = [ Called (Image_open path) (inr img);
              Called (Image_seek img page) (inr tt);
              Called (Image_copy img) (inr copy);
              Called (Image_crop copy box) (inr cropped);
              Called (Image_exit img) (inr tt) ]) \/
    (image_format img <> Some "TIFF" /\
     tr = [ Called (Image_open path) (inr img);
            Called (Image_crop img box) (inr cropped);
            Called (Image_exit img) (inr tt) ]).
Proof. apply crop_image_from_image_ok. Qed.

End Rasterizers.

Lemma box_scaled_for_pdf_only_witness :
  pixmap_requests
    (snd (crop_image_from_pdf_page "doc.pdf" 0 (0, 0, 2, 2)%float Demo.world [])) =
    [ ({| sx := (300 / 72)%float; sy := (300 / 72)%float |},
       {| x0 := 0; y0 := 0; x1 := 144; y1 := 144 |}) ] /\
  crop_boxes
    (snd (crop_image_from_image "scan.tif" 0 (0, 0, 2, 2)%float Demo.world [])) =
    [ (0, 0, 2, 2)%float ].
Proof.
  destruct (box_scaled_for_pdf_only "doc.pdf" 0 0 0 2 2 Demo.world [])
    as (_ & P & _ & _).
  destruct (box_scaled_for_pdf_only "scan.tif" 0 0 0 2 2 Demo.world [])
    as (_ & _ & _ & R).
  split.
  - exact (proj1 (P Demo.derived _ eq_refl)).
  - exact (proj1 (R Demo.derived _ eq_refl)).
Defined.

Lemma crop_image_from_image_seeks_tiff_only_witness :
  exists img,
    (image_format img = Some "TIFF" /\
     exists copy,
       snd (crop_image_from_image "scan.tif" 1 (0, 0, 2, 2)%float Demo.world []) =
       [ Called (Image_open "scan.tif") (inr img);
         Called (Image_seek img 1) (inr tt);
         Called (Image_copy img) (inr copy);
         Called (Image_crop copy (0, 0, 2, 2)%float) (inr Demo.derived);
         Called (Image_exit img) (inr tt) ]) \/
    (image_format img <> Some "TIFF" /\
     snd (crop_image_from_image "scan.tif" 1 (0, 0, 2, 2)%float Demo.world []) =
     [ Called (Image_open "scan.tif") (inr img);
       Called (Image_crop img (0, 0, 2, 2)%float) (inr Demo.derived);
       Called (Image_exit img) (inr tt) ]).
Proof.
  apply (crop_image_from_image_seeks_tiff_only
           "scan.tif" 1 (0, 0, 2, 2)%float Demo.world [] Demo.derived).
  reflexivity.
Defined.

(** C9 as stated fails: were the frame sought for every multi-frame
    format, it would be sought for a GIF; the code crops a GIF as opened. *)
Lemma gif_frame_not_sought :
  ~ (forall (L : Libraries) (w : oracle) (path : string) (page : Z)
            (box : BoundingBox) (img cropped : PILImage) (tr : list event)
            (format : string),
       crop_image_from_image path page box w [] = (inr cropped, tr) ->
       w [] PILImage (Image_open path) = inr img ->
       image_format img = Some format ->
       In format multi_frame_formats ->
       seeks tr = [page]).
Proof.
  intros H.
  specialize (H Demo.libraries Demo.world "scan.gif" 3 (0, 0, 2, 2)%float
                (Demo.image_of "GIF") Demo.derived _ "GIF" eq_refl eq_refl eq_refl).
  discriminate H. right. left. reflexivity.
Qed.

(** The GIF run in full: opened, cropped, closed. *)
Example gif_cropped_as_opened :
  crop_image_from_image "scan.gif" 3 (0, 0, 2, 2)%float Demo.world [] =
  (inr Demo.derived,
   [ Called (Image_open "scan.gif") (inr (Demo.image_of "GIF"));
     Called (Image_crop (Demo.image_of "GIF") (0, 0, 2, 2)%float) (inr Demo.derived);
     Called (Image_exit (Demo.image_of "GIF")) (inr tt) ]).
Proof. reflexivity. Qed.

(** ** The description client *)

Section Describer.

Context {L : Libraries}.

Local Open Scope list_scope.

(** The media type put into the data URL of [path]. *)
Let media_type (path : string) : string :=
  match fst (guess_type path) with
  | None => "application/octet-stream"
  | Some m => m
  end.

(** When the file can be opened, read and closed, the data URL is made
    of the media type and of the base64 text of what was read. *)
Lemma local_image_to_data_url_reads path (f : BinaryFile) (data : list byte)
    (w : oracle) (h : list event) :
  w h BinaryFile (open_rb path) = inr f ->
  w (h ++ [Called (open_rb path) (inr f)]) (list byte) (file_read f) = inr data ->
  w ((h ++ [Called (open_rb path) (inr f)]) ++ [Called (file_read f) (inr data)])
    unit (file_exit f) = inr tt ->
  local_image_to_data_url path w h =
  (inr ("data:" ++ media_type path ++ ";base64,"
          ++ string_of_list_byte (Base64.b64encode data))%string,
   [ Called (open_rb path) (inr f);
     Called (file_read f) (inr data);
     Called (file_exit f) (inr tt) ]).
Proof.
  intros Ho Hr Hx.
  unfold local_image_to_data_url, media_type.
  destruct (guess_type path) as [m e]. cbn [fst].
  unfold with_, bind, ext, ret. rewrite Ho. cbn [app]. rewrite Hr.
  rewrite Hx. reflexivity.
Qed.

Lemma local_image_to_data_url_ok path url w h t :
  local_image_to_data_url path w h = (inr url, t) ->
  exists f data,
    t = [ Called (open_rb path) (inr f);
          Called (file_read f) (inr data);
          Called (file_exit f) (inr tt) ] /\
    url = ("data:" ++ media_type path ++ ";base64,"
             ++ string_of_list_byte (Base64.b64encode data))%string.
Proof.
  unfold local_image_to_data_url, media_type.
  destruct (guess_type path) as [m e]. cbn [fst]. intros H.
  apply bind_ok in H as (payload & t1 & t2 & H1 & H & ->).
  apply ret_ok in H as [-> ->].
  apply with_ok in H1 as (f & to & tb & tx & Ho & Hb & Hx & ->).
  apply ext_ok in Ho as [_ ->]. apply ext_ok in Hx as [_ ->].
  apply bind_ok in Hb as (data & t3 & t4 & H3 & H & ->).
  apply ext_ok in H3 as [_ ->]. apply ret_ok in H as [-> ->].
  now exists f, data.
Qed.

Lemma understand_image_with_gpt_ok base key deployment version path caption
    text w h t :
  understand_image_with_gpt base key deployment version path caption w h
    = (inr text, t) ->
  exists client f data response,
    t = [ Entered (understand_image_with_gpt_call path caption);
          Called (AzureOpenAI key version
                    (base ++ "/openai/deployments/" ++ deployment)%string)
            (inr client);
          Called (open_rb path) (inr f);
          Called (file_read f) (inr data);
          Called (file_exit f) (inr tt);
          Called (chat_completions_create client deployment
                    (chat_messages caption
                       ("data:" ++ media_type path ++ ";base64,"
                          ++ string_of_list_byte (Base64.b64encode data))%string)
                    MAX_TOKENS)
            (inr response) ] /\
    nth_error (choices response) 0 = Some text.
Proof.
  unfold understand_image_with_gpt. intros H.
  apply bind_ok in H as ([] & t0 & ta & H0 & H & ->).
  injection H0 as <-.
  apply bind_ok in H as (client & t1 & tb & H1 & H & ->).
  apply ext_ok in H1 as [_ ->].
  apply bind_ok in H as (url & t2 & tc & H2 & H & ->).
  apply local_image_to_data_url_ok in H2 as (f & data & -> & ->).
  apply bind_ok in H as (response & t3 & td & H3 & H & ->).
  apply ext_ok in H3 as [_ ->].
  apply getitem_ok in H as [E ->].
  now exists client, f, data, response.
Qed.

(** Every request a call of [understand_image_with_gpt] sends carries
    the messages built from its caption. *)
Lemma understand_requests_any_outcome base key deployment version path caption
    (w : oracle) (h : list event) :
  Forall (fun messages => exists url, messages = chat_messages caption url)
    (chat_requests
       (snd (understand_image_with_gpt base key deployment version
               path caption w h))).
Proof.
  unfold understand_image_with_gpt. rewrite enter_then.
  unfold chat_requests. rewrite pick_cons. cbv beta iota.
  match goal with
  | |- Forall ?P (pick ?f (snd (?m ?w ?h))) =>
      assert (S : picks_only f P m); [|exact (S w h)]
  end.
  apply picks_only_bind; [apply silent_picks_only; hush|intros client].
  apply picks_only_bind; [apply silent_picks_only; hush|intros url].
  apply picks_only_bind; [|intros response; apply silent_picks_only; hush].
  apply picks_only_ext. intros r b [= <-]. now exists url.
Qed.

(** C7, as the code has it: when the file at [image_path] can be opened,
    read and closed and holds the bytes [B], the data URL is returned;
    what follows its prefix is base64 text that decodes to exactly [B].
    The prefix is [data:image/png;base64,] when [guess_type] gives
    [image/png] for the path, and [data:application/octet-stream;base64,]
    when it gives no type.  It is the guess that decides, not the last
    four characters of the path. *)
Theorem local_image_to_data_url_png
    (image_path : string) (f : BinaryFile) (B : list byte)
    (w : oracle) (h : list event) :
  w h BinaryFile (open_rb image_path) = inr f ->
  w (h ++ [Called (open_rb image_path) (inr f)]) (list byte) (file_read f)
    = inr B ->
  w ((h ++ [Called (open_rb image_path) (inr f)])
       ++ [Called (file_read f) (inr B)]) unit (file_exit f) = inr tt ->
  exists payload t,
    Base64.b64decode (list_byte_of_string payload) = Some B /\
    (fst (guess_type image_path) = Some "image/png"%string ->
     local_image_to_data_url image_path w h =
       (inr ("data:image/png;base64," ++ payload)%string, t)) /\
    (fst (guess_type image_path) = None ->
     local_image_to_data_url image_path w h =
       (inr ("data:application/octet-stream;base64," ++ payload)%string, t)).
Proof.
  intros Ho Hr Hx.
  exists (string_of_list_byte (Base64.b64encode B)).
  eexists. split; [|split].
  - rewrite list_byte_of_string_of_list_byte. apply b64decode_b64encode.
  - intros Hpng.
    rewrite (local_image_to_data_url_reads _ f B w h Ho Hr Hx).
    unfold media_type. rewrite Hpng. reflexivity.
  - intros Hnone.
    rewrite (local_image_to_data_url_reads _ f B w h Ho Hr Hx).
    unfold media_type. rewrite Hnone. reflexivity.
Qed.

(** C8: whatever the world answers, every request that
    [understand_image_with_gpt] sends has exactly one text part in its
    user message: the sentence naming the caption when the caption is not
    empty, and the plain sentence when it is empty.  A call that returns
    has sent exactly one request. *)
Theorem user_text_follows_caption
    (api_base api_key deployment_name api_version image_path caption : string)
    (w : oracle) (h : list event) :
  (forall messages,
     In messages
       (chat_requests
          (snd (understand_image_with_gpt api_base api_key deployment_name
                  api_version image_path caption w h))) ->
     (caption <> EmptyString ->
      user_texts messages =
        [ ("Describe this image (note: it has image caption: "
             ++ caption ++ "):")%string ]) /\
     (caption = EmptyString ->
      user_texts messages = [ "Describe this image:"%string ])) /\
  (forall text t,
     understand_image_with_gpt api_base api_key deployment_name
       api_version image_path caption w h = (inr text, t) ->
     exists messages, chat_requests t = [messages]).
Proof.
  split.
  - intros messages Hin.
    pose proof (understand_requests_any_outcome api_base api_key
                  deployment_name api_version image_path caption w h) as F.
    rewrite Forall_forall in F. destruct (F _ Hin) as [url ->].
    split.
    + intros Hne. destruct caption; [congruence|reflexivity].
    + intros ->. reflexivity.
  - intros text t H.
    apply understand_image_with_gpt_ok in H
      as (client & f & data & response & -> & _).
    eexists. reflexivity.
Qed.

End Describer.

(** ** The loops over regions and figures *)

Section Loops.

Context {L : Libraries}.

Local Open Scope list_scope.

Section Regions.

Variables (input_file_path output_folder
           aoai_api_base aoai_api_key aoai_deployment_name aoai_api_version
           : string).

Let describe :=
  describe_region input_file_path output_folder aoai_api_base aoai_api_key
    aoai_deployment_name aoai_api_version.

Let file_name := cropped_image_filename input_file_path output_folder.

Lemma describe_region_ok idx caption region acc acc' w h t :
  describe idx caption region acc w h = (inr acc', t) ->
  regions_described input_file_path (file_name idx) caption [region] t /\
  exists text, acc' = (acc ++ text)%string.
Proof.
  unfold describe, describe_region. intros H.
  apply bind_ok in H as (box & tb & t1 & Hb & H & ->).
  apply boundingbox_ok in Hb as [Hbox ->].
  apply bind_ok in H as (img & tc & t2 & Hc & H & ->).
  apply bind_ok in H as (u & ts & t3 & Hs & H & ->).
  apply ext_ok in Hs as [_ ->].
  apply bind_ok in H as (content & tu & t4 & Hu & H & ->).
  apply iadd_ok in H as (text & -> & -> & ->).
  pose proof (crop_image_from_file_notes input_file_path
                (page_number region - 1) box w (h ++ []))
    as (C1 & C2 & C3 & C4).
  rewrite Hc in C1, C2, C3, C4. cbn [snd] in C1, C2, C3, C4.
  apply understand_image_with_gpt_ok in Hu
    as (client & f & data & response & -> & _).
  split; [|now exists text].
  unfold regions_described, crop_calls, understand_calls, saved_files,
    chat_requests in *.
  rewrite !pick_app, ?app_nil_r. cbn [app].
  rewrite C1, C2, C3, C4. rewrite !pick_cons. cbn.
  repeat split.
  - constructor; [|constructor]. now exists box.
  - constructor; [|constructor]. eexists. reflexivity.
Qed.

Lemma regions_described_nil caption name :
  regions_described input_file_path name caption [] [].
Proof. repeat split; constructor. Qed.

Lemma regions_described_app caption name rs1 rs2 t1 t2 :
  regions_described input_file_path name caption rs1 t1 ->
  regions_described input_file_path name caption rs2 t2 ->
  regions_described input_file_path name caption (rs1 ++ rs2) (t1 ++ t2).
Proof.
  unfold regions_described, crop_calls, saved_files, understand_calls,
    chat_requests.
  intros (A1 & B1 & C1 & D1) (A2 & B2 & C2 & D2).
  rewrite !pick_app, !map_app, B1, B2, C1, C2.
  repeat split; now apply Forall2_app.
Qed.

(** The loop over the regions of a figure with a caption: the regions
    found among the caption's are passed over. *)
Lemma region_loop_ok idx caption (captions : option (list BoundingRegion))
    regions :
  forall acc acc' w h t,
    for_each regions
      (fun region img_description =>
         bind (contains region captions)
           (fun found =>
              if negb found then describe idx caption region img_description
              else ret img_description)) acc w h = (inr acc', t) ->
    regions_described input_file_path (file_name idx) caption
      (filter (fun region => negb (region_in region (regions_of captions)))
              regions) t.
Proof.
  induction regions as [|region regions IH]; intros acc acc' w h t H.
  - cbn [for_each] in H. apply ret_ok in H as [_ ->]. apply regions_described_nil.
  - cbn [for_each] in H.
    apply bind_ok in H as (acc1 & t1 & t2 & H1 & H2 & ->).
    apply IH in H2.
    apply bind_ok in H1 as (found & tf & tb & Hf & H1 & ->).
    apply contains_ok in Hf as (items & -> & -> & ->).
    cbn [filter regions_of app] in *.
    destruct (region_in region items); cbn [negb] in *.
    + apply ret_ok in H1 as [_ ->]. exact H2.
    + apply describe_region_ok in H1 as [H1 _].
      now apply (regions_described_app _ _ [region]).
Qed.

Lemma plain_region_loop_ok idx caption regions :
  forall acc acc' w h t,
    for_each regions (describe idx caption) acc w h = (inr acc', t) ->
    regions_described input_file_path (file_name idx) caption regions t.
Proof.
  induction regions as [|region regions IH]; intros acc acc' w h t H.
  - cbn [for_each] in H. apply ret_ok in H as [_ ->]. apply regions_described_nil.
  - cbn [for_each] in H.
    apply bind_ok in H as (acc1 & t1 & t2 & H1 & H2 & ->).
    apply IH in H2. apply describe_region_ok in H1 as [H1 _].
    now apply (regions_described_app _ _ [region]).
Qed.

Let describe_fig :=
  describe_figure input_file_path output_folder aoai_api_base aoai_api_key
    aoai_deployment_name aoai_api_version.

Lemma describe_figure_ok idx figure desc w h t :
  describe_fig idx figure w h = (inr desc, t) ->
  regions_described input_file_path (file_name idx) (caption_text figure)
    (body_regions figure) t.
Proof.
  unfold describe_fig, describe_figure, caption_text, body_regions.
  destruct (figure_caption figure) as [caption|]; intros H;
    apply bind_ok in H as (regions & t1 & t2 & Hi & H & ->);
    apply iter_ok in Hi as [-> ->]; cbn [regions_of app].
  - now apply region_loop_ok in H.
  - now apply plain_region_loop_ok in H.
Qed.

(** A figure that was described had bounding regions to go through. *)
Lemma describe_figure_iterates idx figure desc w h t :
  describe_fig idx figure w h = (inr desc, t) ->
  exists regions, figure_bounding_regions figure = Some regions.
Proof.
  unfold describe_fig, describe_figure.
  destruct (figure_caption figure) as [caption|]; intros H;
    apply bind_ok in H as (regions & t1 & t2 & Hi & H & ->);
    apply iter_ok in Hi as [-> ->]; now exists regions.
Qed.

(** A region loop that describes nothing does nothing. *)
Lemma region_loop_skips_all idx caption
    (captions : option (list BoundingRegion)) regions :
  (forall region, In region regions ->
                  region_in region (regions_of captions) = true) ->
  forall acc w h,
    for_each regions
      (fun region img_description =>
         bind (contains region captions)
           (fun found =>
              if negb found then describe idx caption region img_description
              else ret img_description)) acc w h = (inr acc, []).
Proof.
  induction regions as [|region regions IH]; intros Hk acc w h.
  - reflexivity.
  - cbn [for_each].
    apply (bind_eq _ _ w h acc [] (inr acc) []).
    + pose proof (Hk region (or_introl eq_refl)) as E.
      destruct captions as [items|]; [|discriminate E].
      unfold contains. rewrite bind_ret_l. cbn [regions_of] in E.
      rewrite E. reflexivity.
    + apply IH. intros r Hr. apply Hk. now right.
Qed.

Let step :=
  figure_step input_file_path output_folder aoai_api_base aoai_api_key
    aoai_deployment_name aoai_api_version.

Lemma figure_step_ok idx figure md md' w h t :
  step (idx, figure) md w h = (inr md', t) ->
  exists desc,
    describe_fig idx figure w h = (inr desc, t) /\
    md' = update_figure_description md desc idx.
Proof.
  unfold step, figure_step. intros H.
  apply bind_ok in H as (desc & t1 & t2 & H1 & H2 & ->).
  apply ret_ok in H2 as [-> ->]. exists desc. now rewrite app_nil_r.
Qed.

End Regions.

(** *** The loop over the figures *)

Lemma figure_loop_ok (step : Z * DocumentFigure -> string -> M string) figures :
  forall i md md' w h t,
    for_each (enumerate_from i figures) step md w h = (inr md', t) ->
    exists segs mds,
      t = concat segs /\ figures_run step w h i figures md segs mds md'.
Proof.
  induction figures as [|figure figures IH]; intros i md md' w h t H.
  - cbn [enumerate_from for_each] in H. apply ret_ok in H as [-> ->].
    exists [], []. split; [reflexivity|constructor].
  - cbn [enumerate_from for_each] in H.
    apply bind_ok in H as (md1 & seg & t2 & H1 & H2 & ->).
    apply IH in H2 as (segs & mds & -> & R).
    exists (seg :: segs), (md1 :: mds). split; [reflexivity|].
    econstructor; eassumption.
Qed.

Lemma figures_run_length step w h i figures md segs mds md' :
  figures_run step w h i figures md segs mds md' ->
  length segs = length figures /\ length mds = length figures.
Proof. induction 1; cbn; [now split | lia]. Qed.

Lemma last_cons {A} (l : list A) : forall a d, last (a :: l) d = last l a.
Proof.
  induction l as [|b l IH]; intros a d; [reflexivity|].
  change (last (a :: b :: l) d) with (last (b :: l) d).
  now rewrite (IH b d), (IH b a).
Qed.

(** The markdown a completed loop ends with is the one its last figure
    left, or the one it began with when there is no figure. *)
Lemma figures_run_last step w h i figures md segs mds md' :
  figures_run step w h i figures md segs mds md' -> md' = last mds md.
Proof.
  induction 1 as [|h i fig figs md seg md1 segs mds md' Hs Hr IH];
    [reflexivity|].
  now rewrite last_cons.
Qed.

(** The turn of the [n]th figure within a completed loop: it starts
    from the history extended by the segments of the figures before. *)
Lemma figures_run_nth step w h i figures md segs mds md' :
  figures_run step w h i figures md segs mds md' ->
  forall n figure, nth_error figures n = Some figure ->
  exists before after seg,
    nth_error segs n = Some seg /\
    nth_error (md :: mds) n = Some before /\
    nth_error mds n = Some after /\
    step (i + Z.of_nat n, figure) before w (h ++ concat (firstn n segs))
      = (inr after, seg).
Proof.
  induction 1 as [|h i fig figs md seg md1 segs mds md' Hs Hr IH];
    intros n figure Hn.
  - destruct n; discriminate.
  - destruct n as [|n].
    + injection Hn as <-. exists md, md1, seg.
      repeat split. cbn. now rewrite Z.add_0_r, app_nil_r.
    + cbn [nth_error] in Hn. apply IH in Hn as (b & a & s & H1 & H2 & H3 & H4).
      exists b, a, s. repeat split; try assumption.
      replace (i + Z.of_nat (S n)) with (i + 1 + Z.of_nat n) by lia.
      cbn [firstn concat]. now rewrite app_assoc.
Qed.

(** A completed run of the pipeline: the analysis, then one segment of
    the trace and one markdown per figure, then the heading normalizer. *)
Lemma analyze_layout_ok
    input_file_path output_folder endpoint key base api_key deployment version
    md w h t :
  analyze_layout input_file_path output_folder endpoint key
    base api_key deployment version w h = (inr md, t) ->
  exists client f poller result segs mds last_md,
    t = analysis_events input_file_path endpoint key client f poller result
          ++ concat segs /\
    figures_run
      (figure_step input_file_path output_folder base api_key deployment version)
      w (h ++ analysis_events input_file_path endpoint key client f poller result)
      0 (figures_of result) (result_content result) segs mds last_md /\
    md = convert_markdown_headings last_md.
Proof.
  unfold analyze_layout. intros H.
  apply bind_ok in H as (client & t1 & ta & H1 & H & ->).
  apply ext_ok in H1 as [_ ->].
  apply bind_ok in H as (poller & t2 & tb & H2 & H & ->).
  apply with_ok in H2 as (f & to & tc & tx & Ho & Hb & Hx & ->).
  apply ext_ok in Ho as [_ ->]. apply ext_ok in Hb as [_ ->].
  apply ext_ok in Hx as [_ ->].
  apply bind_ok in H as (result & t3 & td & H3 & H & ->).
  apply ext_ok in H3 as [_ ->].
  apply bind_ok in H as (last_md & t4 & te & H4 & H & ->).
  apply ret_ok in H as [-> ->].
  repeat rewrite <- app_assoc in H4. cbn [app] in H4.
  assert (G : exists segs mds,
            t4 = concat segs /\
            figures_run
              (figure_step input_file_path output_folder base api_key
                 deployment version)
              w (h ++ analysis_events input_file_path endpoint key
                        client f poller result)
              0 (figures_of result) (result_content result) segs mds last_md).
  { unfold figures_of. destruct (result_figures result) as [[|figure figures]|].
    - apply ret_ok in H4 as [-> ->]. exists [], []. split; [reflexivity|constructor].
    - now apply figure_loop_ok in H4.
    - apply ret_ok in H4 as [-> ->]. exists [], []. split; [reflexivity|constructor]. }
  destruct G as (segs & mds & -> & R).
  exists client, f, poller, result, segs, mds, last_md.
  split; [|split; [exact R | reflexivity]].
  rewrite app_nil_r. reflexivity.
Qed.

End Loops.

(** ** The pipeline *)

Section Pipeline.

Context {L : Libraries}.

Local Open Scope list_scope.

Variables (input_file_path output_folder
           doc_intelligence_endpoint doc_intelligence_key
           aoai_api_base aoai_api_key aoai_deployment_name aoai_api_version
           : string).

Let pipeline : M string :=
  analyze_layout input_file_path output_folder
    doc_intelligence_endpoint doc_intelligence_key
    aoai_api_base aoai_api_key aoai_deployment_name aoai_api_version.

Let describe_fig :=
  describe_figure input_file_path output_folder aoai_api_base aoai_api_key
    aoai_deployment_name aoai_api_version.

Let file_name := cropped_image_filename input_file_path output_folder.

(** A completed run, figure by figure: the segment of the trace and the
    markdown before and after each figure, and the run of
    [describe_figure] that produced them.  The markdown returned is the
    normalized markdown left by the last figure. *)
Lemma completed_run md w h t :
  pipeline w h = (inr md, t) ->
  exists client f poller result segs mds,
    t = analysis_events input_file_path doc_intelligence_endpoint
          doc_intelligence_key client f poller result ++ concat segs /\
    length segs = length (figures_of result) /\
    length mds = length (figures_of result) /\
    md = convert_markdown_headings (last mds (result_content result)) /\
    forall n figure,
      nth_error (figures_of result) n = Some figure ->
      exists seg before desc,
        nth_error segs n = Some seg /\
        nth_error (result_content result :: mds) n = Some before /\
        nth_error mds n =
          Some (update_figure_description before desc (Z.of_nat n)) /\
        describe_fig (Z.of_nat n) figure w
          ((h ++ analysis_events input_file_path doc_intelligence_endpoint
                   doc_intelligence_key client f poller result)
             ++ concat (firstn n segs)) = (inr desc, seg).
Proof.
  intros H. apply analyze_layout_ok in H
    as (client & f & poller & result & segs & mds & last_md & -> & R & ->).
  exists client, f, poller, result, segs, mds.
  split; [reflexivity|].
  split; [apply (figures_run_length _ _ _ _ _ _ _ _ _ R)|].
  split; [apply (figures_run_length _ _ _ _ _ _ _ _ _ R)|].
  split; [f_equal; apply (figures_run_last _ _ _ _ _ _ _ _ _ R)|].
  intros n figure Hn.
  destruct (figures_run_nth _ _ _ _ _ _ _ _ _ R n figure Hn)
    as (before & after & seg & Hs & Hb & Ha & Hstep).
  apply figure_step_ok in Hstep as (desc & Hd & ->).
  now exists seg, before, desc.
Qed.

(** With a caption, regions are searched in the caption's regions as soon
    as there is a region to go through. *)
Lemma describe_figure_searches idx figure caption regions desc w h t :
  describe_fig idx figure w h = (inr desc, t) ->
  figure_caption figure = Some caption ->
  figure_bounding_regions figure = Some regions ->
  regions = [] \/
  exists captions, caption_bounding_regions caption = Some captions.
Proof.
  unfold describe_fig, describe_figure. intros H Hcap Hreg.
  rewrite Hcap, Hreg in H.
  apply bind_ok in H as (items & t1 & t2 & Hi & H & ->).
  apply iter_ok in Hi as [[= <-] ->].
  destruct regions as [|region regions]; [now left | right].
  cbn [for_each] in H.
  apply bind_ok in H as (acc1 & t3 & t4 & H1 & _ & _).
  apply bind_ok in H1 as (found & tf & tb & Hf & _ & _).
  apply contains_ok in Hf as (captions & E & _). now exists captions.
Qed.

(** C4: in a run of the pipeline that returns, the trace is the
    analysis followed by one segment per figure, each segment being what
    describing that figure added to the trace.  Every figure without a
    caption has a list of bounding regions, and its segment holds one
    invocation of [understand_image_with_gpt] per bounding region of the
    figure, each with the empty string as caption, and one chat request
    per region, each built from the empty caption. *)
Theorem captionless_figure_described_once_per_region
    (md : string) (w : oracle) (h t : list event) :
  analyze_layout input_file_path output_folder
    doc_intelligence_endpoint doc_intelligence_key
    aoai_api_base aoai_api_key aoai_deployment_name aoai_api_version w h
    = (inr md, t) ->
  exists client f poller result segs,
    t = analysis_events input_file_path doc_intelligence_endpoint
          doc_intelligence_key client f poller result ++ concat segs /\
    length segs = length (figures_of result) /\
    forall n figure,
      nth_error (figures_of result) n = Some figure ->
      figure_caption figure = None ->
      exists seg regions,
        nth_error segs n = Some seg /\
        figure_bounding_regions figure = Some regions /\
        (exists desc,
           describe_figure input_file_path output_folder aoai_api_base
             aoai_api_key aoai_deployment_name aoai_api_version
             (Z.of_nat n) figure w
             ((h ++ analysis_events input_file_path doc_intelligence_endpoint
                      doc_intelligence_key client f poller result)
                ++ concat (firstn n segs)) = (inr desc, seg)) /\
        understand_calls seg =
          map (fun _ =>
                 (cropped_image_filename input_file_path output_folder
                    (Z.of_nat n),
                  EmptyString))
              regions /\
        Forall2 (fun _ messages =>
                   exists data_url,
                     messages = chat_messages EmptyString data_url)
                regions (chat_requests seg).
Proof.
  intros H. apply completed_run in H
    as (client & f & poller & result & segs & mds & -> & Hlen & _ & _ & F).
  exists client, f, poller, result, segs.
  split; [reflexivity|]. split; [exact Hlen|].
  intros n figure Hn Hcap.
  destruct (F n figure Hn) as (seg & before & desc & Hs & _ & _ & Hd).
  destruct (describe_figure_iterates _ _ _ _ _ _ _ _ _ _ _ _ Hd)
    as [regions E].
  exists seg, regions. split; [exact Hs|]. split; [exact E|].
  split; [now exists desc|].
  apply describe_figure_ok in Hd as (_ & _ & U).
  unfold caption_text, body_regions in U. now rewrite Hcap, E in U.
Qed.

(** C5: in a run of the pipeline that returns, the segment of a figure
    with a caption (what describing that figure added to the trace) holds
    crops, saved files, invocations of the description client and chat
    requests for exactly those bounding regions of the figure that are not
    among the caption's bounding regions, one of each per such region and
    in their order; a region that equals one of the caption's regions
    leaves no crop, no saved file and no description request.  The figure
    has a list of bounding regions, and so has the caption unless that
    list is empty. *)
Theorem captioned_figure_skips_caption_regions
    (md : string) (w : oracle) (h t : list event) :
  analyze_layout input_file_path output_folder
    doc_intelligence_endpoint doc_intelligence_key
    aoai_api_base aoai_api_key aoai_deployment_name aoai_api_version w h
    = (inr md, t) ->
  exists client f poller result segs,
    t = analysis_events input_file_path doc_intelligence_endpoint
          doc_intelligence_key client f poller result ++ concat segs /\
    length segs = length (figures_of result) /\
    forall n figure caption,
      nth_error (figures_of result) n = Some figure ->
      figure_caption figure = Some caption ->
      exists seg regions kept,
        nth_error segs n = Some seg /\
        figure_bounding_regions figure = Some regions /\
        (regions = [] \/
         exists captions, caption_bounding_regions caption = Some captions) /\
        (exists desc,
           describe_figure input_file_path output_folder aoai_api_base
             aoai_api_key aoai_deployment_name aoai_api_version
             (Z.of_nat n) figure w
             ((h ++ analysis_events input_file_path doc_intelligence_endpoint
                      doc_intelligence_key client f poller result)
                ++ concat (firstn n segs)) = (inr desc, seg)) /\
        kept = filter (fun region =>
                         negb (region_in region
                                 (regions_of (caption_bounding_regions caption))))
                      regions /\
        Forall2 (fun region c =>
                   exists box,
                     box_of_polygon (polygon region) box /\
                     c = (input_file_path, page_number region - 1, box))
                kept (crop_calls seg) /\
        saved_files seg =
          map (fun _ =>
                 cropped_image_filename input_file_path output_folder
                   (Z.of_nat n))
              kept /\
        understand_calls seg =
          map (fun _ =>
                 (cropped_image_filename input_file_path output_folder
                    (Z.of_nat n),
                  caption_content caption))
              kept /\
        Forall2 (fun _ messages =>
                   exists data_url,
                     messages = chat_messages (caption_content caption) data_url)
                kept (chat_requests seg).
Proof.
  intros H. apply completed_run in H
    as (client & f & poller & result & segs & mds & -> & Hlen & _ & _ & F).
  exists client, f, poller, result, segs.
  split; [reflexivity|]. split; [exact Hlen|].
  intros n figure caption Hn Hcap.
  destruct (F n figure Hn) as (seg & before & desc & Hs & _ & _ & Hd).
  destruct (describe_figure_iterates _ _ _ _ _ _ _ _ _ _ _ _ Hd)
    as [regions E].
  exists seg, regions. eexists. split; [exact Hs|]. split; [exact E|].
  split; [exact (describe_figure_searches _ _ _ _ _ _ _ _ Hd Hcap E)|].
  split; [now exists desc|].
  split; [reflexivity|].
  apply describe_figure_ok in Hd.
  unfold caption_text, body_regions in Hd. rewrite Hcap, E in Hd. exact Hd.
Qed.

(** C6: in a run of the pipeline that returns, the crops in the segment
    of a figure correspond, in order, to the regions the figure is
    described by; each crop is of the input file, on the region's page
    counted from 0, and its box is made of the numbers at positions 0, 1,
    4 and 5 of the region's polygon, which for a polygon of four vertices
    are the first and the third vertex. *)
Theorem boundingbox_from_first_and_third_vertex
    (md : string) (w : oracle) (h t : list event) :
  analyze_layout input_file_path output_folder
    doc_intelligence_endpoint doc_intelligence_key
    aoai_api_base aoai_api_key aoai_deployment_name aoai_api_version w h
    = (inr md, t) ->
  exists client f poller result segs,
    t = analysis_events input_file_path doc_intelligence_endpoint
          doc_intelligence_key client f poller result ++ concat segs /\
    length segs = length (figures_of result) /\
    forall n figure,
      nth_error (figures_of result) n = Some figure ->
      exists seg,
        nth_error segs n = Some seg /\
        (exists desc,
           describe_figure input_file_path output_folder aoai_api_base
             aoai_api_key aoai_deployment_name aoai_api_version
             (Z.of_nat n) figure w
             ((h ++ analysis_events input_file_path doc_intelligence_endpoint
                      doc_intelligence_key client f poller result)
                ++ concat (firstn n segs)) = (inr desc, seg)) /\
        Forall2 (fun region c =>
                   exists left top right bottom,
                     nth_error (polygon region) 0 = Some left /\
                     nth_error (polygon region) 1 = Some top /\
                     nth_error (polygon region) 4 = Some right /\
                     nth_error (polygon region) 5 = Some bottom /\
                     c = (input_file_path, page_number region - 1,
                          (left, top, right, bottom)) /\
                     forall ax ay bx by_ cx cy dx dy,
                       polygon region = [ax; ay; bx; by_; cx; cy; dx; dy] ->
                       (left, top, right, bottom) = (ax, ay, cx, cy))
                (body_regions figure) (crop_calls seg).
Proof.
  intros H. apply completed_run in H
    as (client & f & poller & result & segs & mds & -> & Hlen & _ & _ & F).
  exists client, f, poller, result, segs.
  split; [reflexivity|]. split; [exact Hlen|].
  intros n figure Hn.
  destruct (F n figure Hn) as (seg & before & desc & Hs & _ & _ & Hd).
  exists seg. split; [exact Hs|]. split; [now exists desc|].
  apply describe_figure_ok in Hd as (C & _ & _ & _).
  eapply Forall2_impl; [|exact C].
  intros region c (box & (a & b & c0 & d & Ha & Hb & Hc & Hd & ->) & ->).
  exists a, b, c0, d. repeat split; try assumption.
  intros ax ay bx by_ cx cy dx dy E. rewrite E in Ha, Hb, Hc, Hd.
  cbn in Ha, Hb, Hc, Hd. congruence.
Qed.

(** C10: for a figure that has a caption and whose bounding regions are
    all among the caption's, one turn of the figure loop calls nothing
    and returns the markdown patched with the empty description; when the
    placeholder of the figure and a closing tag after it are there, the
    span between them becomes the annotation with nothing between its
    quotes.  In a run of the pipeline that returns, the markdown returned
    is the normalized last markdown of a chain that starts from the
    analyzer's markdown and in which every figure, in order, turns the
    markdown before it into that markdown patched at the figure's index
    with the description gathered for the figure; for a figure as above
    the segment of the trace is empty and that description is the empty
    string. *)
Theorem caption_only_figure_gets_empty_description :
  (forall idx figure caption regions md w h,
     figure_caption figure = Some caption ->
     figure_bounding_regions figure = Some regions ->
     (forall region,
        In region regions ->
        region_in region (regions_of (caption_bounding_regions caption))
          = true) ->
     figure_step input_file_path output_folder aoai_api_base aoai_api_key
       aoai_deployment_name aoai_api_version (idx, figure) md w h =
     (inr (update_figure_description md EmptyString idx), [])) /\
  (forall idx md p,
     PyStr.first_occurrence_from (start_substring idx) md 0 p ->
     (exists j, (p + String.length (start_substring idx) <= j)%nat /\
                PyStr.occurs_at "</figure>" md j) ->
     exists q,
       PyStr.first_occurrence_from "</figure>" md
         (p + String.length (start_substring idx)) q /\
       update_figure_description md EmptyString idx =
         (substring 0 (p + String.length (start_substring idx)) md
            ++ ("<!-- FigureContent=" ++ PyStr.dquote ++ PyStr.dquote ++ " -->")
            ++ substring q (String.length md - q) md)%string) /\
  (forall md w h t,
     analyze_layout input_file_path output_folder
       doc_intelligence_endpoint doc_intelligence_key
       aoai_api_base aoai_api_key aoai_deployment_name aoai_api_version w h
       = (inr md, t) ->
     exists client f poller result segs mds,
       t = analysis_events input_file_path doc_intelligence_endpoint
             doc_intelligence_key client f poller result ++ concat segs /\
       length segs = length (figures_of result) /\
       length mds = length (figures_of result) /\
       md = convert_markdown_headings (last mds (result_content result)) /\
       forall n figure,
         nth_error (figures_of result) n = Some figure ->
         exists seg before desc,
           nth_error segs n = Some seg /\
           nth_error (result_content result :: mds) n = Some before /\
           nth_error mds n =
             Some (update_figure_description before desc (Z.of_nat n)) /\
           describe_figure input_file_path output_folder aoai_api_base
             aoai_api_key aoai_deployment_name aoai_api_version
             (Z.of_nat n) figure w
             ((h ++ analysis_events input_file_path doc_intelligence_endpoint
                      doc_intelligence_key client f poller result)
                ++ concat (firstn n segs)) = (inr desc, seg) /\
           forall caption regions,
             figure_caption figure = Some caption ->
             figure_bounding_regions figure = Some regions ->
             (forall region,
                In region regions ->
                region_in region
                  (regions_of (caption_bounding_regions caption)) = true) ->
             seg = [] /\ desc = EmptyString).
Proof.
  assert (D : forall idx figure caption regions w h,
            figure_caption figure = Some caption ->
            figure_bounding_regions figure = Some regions ->
            (forall region,
               In region regions ->
               region_in region (regions_of (caption_bounding_regions caption))
                 = true) ->
            describe_fig idx figure w h = (inr EmptyString, [])).
  { intros idx figure caption regions w h Hcap Hreg Hall.
    unfold describe_fig, describe_figure. rewrite Hcap, Hreg.
    unfold iter. rewrite bind_ret_l.
    now apply (region_loop_skips_all input_file_path output_folder
                 aoai_api_base aoai_api_key aoai_deployment_name
                 aoai_api_version idx (caption_content caption)
                 (caption_bounding_regions caption)). }
  split; [|split].
  - intros idx figure caption regions md w h Hcap Hreg Hall.
    unfold figure_step, bind.
    fold describe_fig. rewrite (D idx figure caption regions w h Hcap Hreg Hall).
    reflexivity.
  - intros idx md p Hp Hj.
    destruct (placeholder_span_replaced md EmptyString idx p Hp Hj)
      as (q & Hq & _ & E & _).
    exists q. split; [exact Hq | exact E].
  - intros md w h t H. apply completed_run in H
      as (client & f & poller & result & segs & mds & -> & Hlen & Hmds & Hmd & F).
    exists client, f, poller, result, segs, mds.
    split; [reflexivity|]. split; [exact Hlen|]. split; [exact Hmds|].
    split; [exact Hmd|].
    intros n figure Hn.
    destruct (F n figure Hn) as (seg & before & desc & Hs & Hb & Ha & Hd).
    exists seg, before, desc.
    split; [exact Hs|]. split; [exact Hb|]. split; [exact Ha|].
    split; [exact Hd|].
    intros caption regions Hcap Hreg Hall.
    fold describe_fig in Hd.
    rewrite (D _ figure caption regions w _ Hcap Hreg Hall) in Hd.
    injection Hd as <- <-. now split.
Qed.

End Pipeline.

(** ** The theorems at work in the small world *)

Lemma update_figure_description_replaces_span_witness :
  exists q,
    PyStr.first_occurrence_from "</figure>" Demo.markdown
      (8 + String.length (start_substring 0)) q /\
    start_substring 0 = ("![](figures/" ++ PyStr.str 0 ++ ")")%string /\
    update_figure_description Demo.markdown "a chart" 0 =
      (substring 0 (8 + String.length (start_substring 0)) Demo.markdown
         ++ ("<!-- FigureContent=" ++ PyStr.dquote ++ "a chart" ++ PyStr.dquote
               ++ " -->")
         ++ substring q (String.length Demo.markdown - q) Demo.markdown)%string /\
    Demo.markdown =
      (substring 0 (8 + String.length (start_substring 0)) Demo.markdown
         ++ substring (8 + String.length (start_substring 0))
              (q - (8 + String.length (start_substring 0))) Demo.markdown
         ++ substring q (String.length Demo.markdown - q) Demo.markdown)%string.
Proof.
  apply (update_figure_description_replaces_span Demo.markdown "a chart" 0 8).
  - apply index_first_occurrence; [discriminate | reflexivity].
  - exists 27%nat. split; [vm_compute; lia|].
    split; [vm_compute; lia | reflexivity].
Defined.

Lemma update_figure_description_noop_witness :
  update_figure_description "no figure here" "a chart" 3 = "no figure here" /\
  update_figure_description "![](figures/3) left open" "a chart" 3 =
    "![](figures/3) left open".
Proof.
  split.
  - apply (proj1 (update_figure_description_noop "no figure here" "a chart" 3)).
    intros i. apply (index_none_no_occurrence _ _ 0%nat);
      [discriminate | reflexivity | lia].
  - apply (proj2 (update_figure_description_noop
                    "![](figures/3) left open" "a chart" 3) 0%nat).
    + apply index_first_occurrence; [discriminate | reflexivity].
    + intros j Hj. apply (index_none_no_occurrence _ _ 14%nat);
        [discriminate | reflexivity | exact Hj].
Defined.

Lemma local_image_to_data_url_png_witness :
  exists payload t,
    Base64.b64decode (list_byte_of_string payload)
      = Some (list_byte_of_string "Man") /\
    (fst (guess_type "out/doc_cropped_image_0.png") = Some "image/png"%string ->
     local_image_to_data_url "out/doc_cropped_image_0.png" Demo.world [] =
       (inr ("data:image/png;base64," ++ payload)%string, t)) /\
    (fst (guess_type "out/doc_cropped_image_0.png") = None ->
     local_image_to_data_url "out/doc_cropped_image_0.png" Demo.world [] =
       (inr ("data:application/octet-stream;base64," ++ payload)%string, t)).
Proof.
  apply (local_image_to_data_url_png "out/doc_cropped_image_0.png"
           (Demo.file_at "out/doc_cropped_image_0.png") (list_byte_of_string "Man")
           Demo.world []); reflexivity.
Defined.

(** In the small world the saved crop is guessed to be [image/png], and
    its data URL is as C7 says. *)
Example data_url_of_saved_crop :
  guess_type "out/doc_cropped_image_0.png" = (Some "image/png"%string, None) /\
  local_image_to_data_url "out/doc_cropped_image_0.png" Demo.world [] =
    (inr "data:image/png;base64,TWFu",
     [ Called (open_rb "out/doc_cropped_image_0.png")
         (inr (Demo.file_at "out/doc_cropped_image_0.png"));
       Called (file_read (Demo.file_at "out/doc_cropped_image_0.png"))
         (inr (list_byte_of_string "Man"));
       Called (file_exit (Demo.file_at "out/doc_cropped_image_0.png")) (inr tt) ]).
Proof. split; reflexivity. Qed.

(** C7 as stated fails: the path [out/.png] ends in [.png], but its last
    component is all dots and extension to [splitext], so that no type is
    guessed for it and no data URL of the file begins with
    [data:image/png;base64,]. *)
Lemma dot_png_is_not_guessed :
  ~ (forall (L : Libraries) (w : oracle) (image_path : string)
            (f : BinaryFile) (B : list byte),
       PyStr.endswith image_path ".png" = true ->
       w [] BinaryFile (open_rb image_path) = inr f ->
       w [Called (open_rb image_path) (inr f)] (list byte) (file_read f)
         = inr B ->
       w [Called (open_rb image_path) (inr f); Called (file_read f) (inr B)]
         unit (file_exit f) = inr tt ->
       exists payload t,
         Base64.b64decode (list_byte_of_string payload) = Some B /\
         local_image_to_data_url image_path w [] =
           (inr ("data:image/png;base64," ++ payload)%string, t)).
Proof.
  intros H.
  destruct (H Demo.libraries Demo.world "out/.png"%string
              (Demo.file_at "out/.png") (list_byte_of_string "Man")
              eq_refl eq_refl eq_refl eq_refl)
    as (payload & t & _ & E).
  cbn in E. discriminate E.
Qed.

(** The run on [out/.png] in full: no type is guessed, and the URL names
    [application/octet-stream]. *)
Example dot_png_data_url :
  PyStr.endswith "out/.png" ".png" = true /\
  guess_type "out/.png" = (None, None) /\
  local_image_to_data_url "out/.png" Demo.world [] =
    (inr "data:application/octet-stream;base64,TWFu",
     [ Called (open_rb "out/.png") (inr (Demo.file_at "out/.png"));
       Called (file_read (Demo.file_at "out/.png"))
         (inr (list_byte_of_string "Man"));
       Called (file_exit (Demo.file_at "out/.png")) (inr tt) ]).
Proof. repeat split. Qed.

Lemma user_text_follows_caption_witness :
  exists messages,
    chat_requests
      (snd (understand_image_with_gpt "https://chat" "key2" "gpt" "2024-02-01"
              "out/doc_cropped_image_0.png" "Fig. 1" Demo.world [])) =
    [messages].
Proof.
  apply (proj2 (user_text_follows_caption "https://chat" "key2" "gpt"
                  "2024-02-01" "out/doc_cropped_image_0.png" "Fig. 1"
                  Demo.world []) (Some "a chart"%string)).
  reflexivity.
Defined.

Lemma captionless_figure_described_once_per_region_witness :
  exists client f poller result segs,
    Demo.trace = (analysis_events "doc.pdf" "https://layout" "key1"
                   client f poller result ++ concat segs)%list /\
    length segs = length (figures_of result) /\
    forall n figure,
      nth_error (figures_of result) n = Some figure ->
      figure_caption figure = None ->
      exists seg regions,
        nth_error segs n = Some seg /\
        figure_bounding_regions figure = Some regions /\
        (exists desc,
           describe_figure "doc.pdf" "out" "https://chat" "key2" "gpt"
             "2024-02-01" (Z.of_nat n) figure Demo.world
             (([] ++ analysis_events "doc.pdf" "https://layout" "key1"
                       client f poller result)
                ++ concat (firstn n segs))%list = (inr desc, seg)) /\
        understand_calls seg =
          map (fun _ => (cropped_image_filename "doc.pdf" "out" (Z.of_nat n),
                         EmptyString))
              regions /\
        Forall2 (fun _ messages =>
                   exists data_url,
                     messages = chat_messages EmptyString data_url)
                regions (chat_requests seg).
Proof.
  apply (captionless_figure_described_once_per_region
           "doc.pdf" "out" "https://layout" "key1"
           "https://chat" "key2" "gpt" "2024-02-01" Demo.returned Demo.world []).
  vm_compute. reflexivity.
Defined.

Lemma captioned_figure_skips_caption_regions_witness :
  exists client f poller result segs,
    Demo.trace = (analysis_events "doc.pdf" "https://layout" "key1"
                   client f poller result ++ concat segs)%list /\
    length segs = length (figures_of result) /\
    forall n figure caption,
      nth_error (figures_of result) n = Some figure ->
      figure_caption figure = Some caption ->
      exists seg regions kept,
        nth_error segs n = Some seg /\
        figure_bounding_regions figure = Some regions /\
        (regions = [] \/
         exists captions, caption_bounding_regions caption = Some captions) /\
        (exists desc,
           describe_figure "doc.pdf" "out" "https://chat" "key2" "gpt"
             "2024-02-01" (Z.of_nat n) figure Demo.world
             (([] ++ analysis_events "doc.pdf" "https://layout" "key1"
                       client f poller result)
                ++ concat (firstn n segs))%list = (inr desc, seg)) /\
        kept = filter (fun region =>
                         negb (region_in region
                                 (regions_of (caption_bounding_regions caption))))
                      regions /\
        Forall2 (fun region c =>
                   exists box,
                     box_of_polygon (polygon region) box /\
                     c = ("doc.pdf"%string, page_number region - 1, box))
                kept (crop_calls seg) /\
        saved_files seg =
          map (fun _ => cropped_image_filename "doc.pdf" "out" (Z.of_nat n)) kept /\
        understand_calls seg =
          map (fun _ => (cropped_image_filename "doc.pdf" "out" (Z.of_nat n),
                         caption_content caption)) kept /\
        Forall2 (fun _ messages =>
                   exists data_url,
                     messages = chat_messages (caption_content caption) data_url)
                kept (chat_requests seg).
Proof.
  apply (captioned_figure_skips_caption_regions
           "doc.pdf" "out" "https://layout" "key1"
           "https://chat" "key2" "gpt" "2024-02-01" Demo.returned Demo.world []).
  vm_compute. reflexivity.
Defined.

Lemma boundingbox_from_first_and_third_vertex_witness :
  exists client f poller result segs,
    Demo.trace = (analysis_events "doc.pdf" "https://layout" "key1"
                   client f poller result ++ concat segs)%list /\
    length segs = length (figures_of result) /\
    forall n figure,
      nth_error (figures_of result) n = Some figure ->
      exists seg,
        nth_error segs n = Some seg /\
        (exists desc,
           describe_figure "doc.pdf" "out" "https://chat" "key2" "gpt"
             "2024-02-01" (Z.of_nat n) figure Demo.world
             (([] ++ analysis_events "doc.pdf" "https://layout" "key1"
                       client f poller result)
                ++ concat (firstn n segs))%list = (inr desc, seg)) /\
        Forall2 (fun region c =>
                   exists left top right bottom,
                     nth_error (polygon region) 0 = Some left /\
                     nth_error (polygon region) 1 = Some top /\
                     nth_error (polygon region) 4 = Some right /\
                     nth_error (polygon region) 5 = Some bottom /\
                     c = ("doc.pdf"%string, page_number region - 1,
                          (left, top, right, bottom)) /\
                     forall ax ay bx by_ cx cy dx dy,
                       polygon region = [ax; ay; bx; by_; cx; cy; dx; dy] ->
                       (left, top, right, bottom) = (ax, ay, cx, cy))
                (body_regions figure) (crop_calls seg).
Proof.
  apply (boundingbox_from_first_and_third_vertex
           "doc.pdf" "out" "https://layout" "key1"
           "https://chat" "key2" "gpt" "2024-02-01" Demo.returned Demo.world []).
  vm_compute. reflexivity.
Defined.

Lemma caption_only_figure_gets_empty_description_witness :
  figure_step "doc.pdf" "out" "https://chat" "key2" "gpt" "2024-02-01"
    (2, {| figure_caption := Some Demo.legend_caption;
           figure_bounding_regions := Some [Demo.legend] |})
    Demo.markdown Demo.world [] =
  (inr (update_figure_description Demo.markdown EmptyString 2), []) /\
  exists client f poller result segs mds,
    Demo.trace = (analysis_events "doc.pdf" "https://layout" "key1"
                    client f poller result ++ concat segs)%list /\
    length segs = length (figures_of result) /\
    length mds = length (figures_of result) /\
    Demo.returned =
      convert_markdown_headings (last mds (result_content result)) /\
    forall n figure,
      nth_error (figures_of result) n = Some figure ->
      exists seg before desc,
        nth_error segs n = Some seg /\
        nth_error (result_content result :: mds) n = Some before /\
        nth_error mds n =
          Some (update_figure_description before desc (Z.of_nat n)) /\
        describe_figure "doc.pdf" "out" "https://chat" "key2" "gpt"
          "2024-02-01" (Z.of_nat n) figure Demo.world
          (([] ++ analysis_events "doc.pdf" "https://layout" "key1"
                    client f poller result)
             ++ concat (firstn n segs))%list = (inr desc, seg) /\
        forall caption regions,
          figure_caption figure = Some caption ->
          figure_bounding_regions figure = Some regions ->
          (forall region,
             In region regions ->
             region_in region (regions_of (caption_bounding_regions caption))
               = true) ->
          seg = [] /\ desc = EmptyString.
Proof.
  split.
  - apply (proj1 (caption_only_figure_gets_empty_description
                    "doc.pdf" "out" "https://layout" "key1"
                    "https://chat" "key2" "gpt" "2024-02-01")
             2 {| figure_caption := Some Demo.legend_caption;
                  figure_bounding_regions := Some [Demo.legend] |}
             Demo.legend_caption [Demo.legend] Demo.markdown Demo.world []
             eq_refl eq_refl).
    intros region [<-|[]]. reflexivity.
  - apply (proj2 (proj2 (caption_only_figure_gets_empty_description
                           "doc.pdf" "out" "https://layout" "key1"
                           "https://chat" "key2" "gpt" "2024-02-01"))
             Demo.returned Demo.world []).
    vm_compute. reflexivity.
Defined.

(** The crops of the small run: first and third vertex, times 72. *)
Example crops_of_the_run :
  crop_calls Demo.trace =
    [ ("doc.pdf"%string, 0, (0, 0, 2, 2)%float);
      ("doc.pdf"%string, 1, (1, 1.5, 4, 3)%float) ] /\
  map snd (pixmap_requests Demo.trace) =
    [ {| x0 := 0; y0 := 0; x1 := 144; y1 := 144 |};
      {| x0 := 72; y0 := 108; x1 := 288; y1 := 216 |} ] /\
  understand_calls Demo.trace =
    [ ("out/doc_cropped_image_0.png"%string, EmptyString);
      ("out/doc_cropped_image_1.png"%string, "Fig. 1"%string) ] /\
  saved_files Demo.trace =
    [ "out/doc_cropped_image_0.png"%string;
      "out/doc_cropped_image_1.png"%string ].
Proof. repeat split. Qed.

(** The markdown the small run returns: every figure body replaced, the
    last one by an empty description. *)
Example markdown_of_the_run :
  fst Demo.run =
  inr ("<figure>![](figures/0)" ++ new_string "a chart" ++ "</figure>"
       ++ "<figure>![](figures/1)" ++ new_string "a chart" ++ "</figure>"
       ++ "<figure>![](figures/2)" ++ new_string EmptyString ++ "</figure>").
Proof. reflexivity. Qed.

(** ** Exceptions are never swallowed *)

Section Unforgiving.

Context {L : Libraries}.

Local Open Scope list_scope.

Lemma unforgiving_ret {A} (a : A) : unforgiving (ret a).
Proof. intros w h b t H. apply ret_ok in H as [_ ->]. reflexivity. Qed.

Lemma unforgiving_raise {A} (e : exception) : unforgiving (@raise L A e).
Proof. intros w h b t H. discriminate H. Qed.

Lemma unforgiving_enter (f : invocation) : unforgiving (enter f).
Proof. intros w h b t H. injection H as _ <-. reflexivity. Qed.

Lemma unforgiving_ext {A} (c : call A) : unforgiving (ext c).
Proof. intros w h b t H. apply ext_ok in H as [_ ->]. reflexivity. Qed.

Lemma unforgiving_getitem {A} (l : list A) (i : nat) : unforgiving (getitem l i).
Proof. intros w h b t H. apply getitem_ok in H as [_ ->]. reflexivity. Qed.

Lemma unforgiving_bind {A B} (m : M A) (k : A -> M B) :
  unforgiving m -> (forall a, unforgiving (k a)) -> unforgiving (bind m k).
Proof.
  intros Hm Hk w h b t H.
  apply bind_ok in H as (a & t1 & t2 & H1 & H2 & ->).
  rewrite existsb_app, (Hm _ _ _ _ H1), (Hk _ _ _ _ _ H2). reflexivity.
Qed.

Lemma unforgiving_with {A B} (enter_ : M A) (exit_ : A -> M unit)
    (body : A -> M B) :
  unforgiving enter_ -> (forall x, unforgiving (exit_ x)) ->
  (forall x, unforgiving (body x)) -> unforgiving (with_ enter_ exit_ body).
Proof.
  intros He Hx Hb w h b t H.
  apply with_ok in H as (x & t1 & t2 & t3 & H1 & H2 & H3 & ->).
  rewrite !existsb_app, (He _ _ _ _ H1), (Hb _ _ _ _ _ H2), (Hx _ _ _ _ _ H3).
  reflexivity.
Qed.

Lemma unforgiving_for_each {A S} (body : A -> S -> M S) (l : list A) :
  (forall x acc, unforgiving (body x acc)) ->
  forall acc, unforgiving (for_each l body acc).
Proof.
  intros Hb. induction l as [|x l IH]; intros acc; cbn [for_each].
  - apply unforgiving_ret.
  - apply unforgiving_bind; [apply Hb | exact IH].
Qed.

End Unforgiving.

(** Proves that a computation built from the combinators and from the
    functions of the module is [unforgiving]. *)
Ltac strict :=
  repeat first
    [ apply unforgiving_ret
    | apply unforgiving_raise
    | apply unforgiving_enter
    | apply unforgiving_getitem
    | apply unforgiving_ext
    | apply unforgiving_with; [|intros|intros]
    | apply unforgiving_for_each; intros
    | apply unforgiving_bind; [|intros]
    | match goal with
      | |- unforgiving (if ?b then _ else _) => destruct b
      | |- unforgiving (match ?x with _ => _ end) => destruct x
      | |- unforgiving (let '(_, _) := ?x in _) => destruct x
      end
    | progress unfold analyze_layout, figure_step, describe_figure,
        describe_region, boundingbox, understand_image_with_gpt,
        local_image_to_data_url, crop_image_from_file,
        crop_image_from_image, crop_image_from_pdf_page, fitz_Rect,
        iter, contains, iadd ].

Section NothingSwallowed.

Context {L : Libraries}.

(** A run of the pipeline that returns a markdown has seen every one of
    its calls succeed: the module catches no exception, so a failed call
    anywhere (analysis, rasterizing, saving, describing) ends the run
    with an exception. *)
Theorem analyze_layout_returns_only_without_failures
    (input_file_path output_folder
     doc_intelligence_endpoint doc_intelligence_key
     aoai_api_base aoai_api_key aoai_deployment_name aoai_api_version
     md : string) (w : oracle) (h t : list event) :
  analyze_layout input_file_path output_folder
    doc_intelligence_endpoint doc_intelligence_key
    aoai_api_base aoai_api_key aoai_deployment_name aoai_api_version w h
    = (inr md, t) ->
  existsb failed t = false.
Proof.
  revert w h md t.
  change (unforgiving
            (analyze_layout input_file_path output_folder
               doc_intelligence_endpoint doc_intelligence_key
               aoai_api_base aoai_api_key aoai_deployment_name
               aoai_api_version)).
  strict.
Qed.

End NothingSwallowed.

(** ** What is opened is closed *)

Section Balanced.

Context {L : Libraries}.

Local Open Scope list_scope.

Lemma silent_enter {B} (f : event -> option B) (i : invocation) :
  f (Entered i) = None -> silent f (enter i).
Proof. intros H w h. unfold enter, pick. cbn. now rewrite H. Qed.

Lemma balanced_of_silent {A B} (opened exited : event -> option B) (m : M A) :
  silent opened m -> silent exited m -> balanced opened exited m.
Proof. intros Ho Hx w h. now rewrite Ho, Hx. Qed.

Lemma balanced_bind {A B C} (opened exited : event -> option C)
    (m : M A) (k : A -> M B) :
  balanced opened exited m -> (forall a, balanced opened exited (k a)) ->
  balanced opened exited (bind m k).
Proof.
  intros Hm Hk w h. unfold bind. specialize (Hm w h).
  destruct (m w h) as [[e|a] t1]; [exact Hm|].
  specialize (Hk a w (h ++ t1)). destruct (k a w (h ++ t1)) as [r t2].
  cbn [snd] in *. now rewrite !pick_app, Hm, Hk.
Qed.

Lemma balanced_for_each {A S B} (opened exited : event -> option B)
    (body : A -> S -> M S) (l : list A) :
  (forall x acc, balanced opened exited (body x acc)) ->
  forall acc, balanced opened exited (for_each l body acc).
Proof.
  intros Hb. induction l as [|x l IH]; intros acc; cbn [for_each].
  - intros w h. reflexivity.
  - apply balanced_bind; [apply Hb | exact IH].
Qed.

(** A [with open(...)] block whose body opens and leaves no file leaves
    the one file it opened, however the body ends. *)
Lemma balanced_with_file {B} (path : string) (body : BinaryFile -> M B) :
  (forall f, silent opens_file (body f)) ->
  (forall f, silent exits_file (body f)) ->
  balanced opens_file exits_file
    (with_ (ext (open_rb path)) (fun f => ext (file_exit f)) body).
Proof.
  intros Ho Hx w h. unfold with_, bind, ext.
  destruct (w h BinaryFile (open_rb path)) as [e|f]; [reflexivity|].
  specialize (Ho f w (h ++ [Called (open_rb path) (inr f)])).
  specialize (Hx f w (h ++ [Called (open_rb path) (inr f)])).
  destruct (body f w (h ++ [Called (open_rb path) (inr f)])) as [r t].
  cbn [snd] in Ho, Hx.
  destruct (w _ unit (file_exit f)) as [e|u]; cbn [snd app];
    rewrite !pick_cons, !pick_app, Ho, Hx; reflexivity.
Qed.

Lemma balanced_with_image {B} (path : string) (body : PILImage -> M B) :
  (forall img, silent opens_image (body img)) ->
  (forall img, silent exits_image (body img)) ->
  balanced opens_image exits_image
    (with_ (ext (Image_open path)) (fun img => ext (Image_exit img)) body).
Proof.
  intros Ho Hx w h. unfold with_, bind, ext.
  destruct (w h PILImage (Image_open path)) as [e|img]; [reflexivity|].
  specialize (Ho img w (h ++ [Called (Image_open path) (inr img)])).
  specialize (Hx img w (h ++ [Called (Image_open path) (inr img)])).
  destruct (body img w (h ++ [Called (Image_open path) (inr img)])) as [r t].
  cbn [snd] in Ho, Hx.
  destruct (w _ unit (Image_exit img)) as [e|u]; cbn [snd app];
    rewrite !pick_cons, !pick_app, Ho, Hx; reflexivity.
Qed.

End Balanced.

(** Proves [silent] for the functions of the module as well. *)
Ltac mute :=
  repeat first
    [ apply silent_enter; reflexivity
    | progress hush
    | progress unfold analyze_layout, figure_step, describe_figure,
        describe_region, boundingbox, understand_image_with_gpt,
        crop_image_from_file ].

(** Proves [balanced] for the functions of the module. *)
Ltac poised :=
  repeat first
    [ solve [apply balanced_of_silent; mute]
    | apply balanced_with_file; intros; solve [mute]
    | apply balanced_with_image; intros; solve [mute]
    | apply balanced_for_each; intros
    | apply balanced_bind; [|intros]
    | match goal with
      | |- balanced _ _ (if ?b then _ else _) => destruct b
      | |- balanced _ _ (match ?x with _ => _ end) => destruct x
      end
    | progress unfold analyze_layout, figure_step, describe_figure,
        describe_region, boundingbox, understand_image_with_gpt,
        local_image_to_data_url, crop_image_from_file,
        crop_image_from_image ].

Section NothingLeftOpen.

Context {L : Libraries}.

(** However a run of the pipeline ends, every file it opened (the
    document sent to the analyzer, each saved crop read back) has had its
    [with] block left, and so has every image opened with [Image.open]:
    the files opened and the files left are the same, in the same order,
    and likewise the images. *)
Theorem analyze_layout_leaves_nothing_open
    (input_file_path output_folder
     doc_intelligence_endpoint doc_intelligence_key
     aoai_api_base aoai_api_key aoai_deployment_name aoai_api_version
     : string) (w : oracle) (h : list event) :
  opened_files
    (snd (analyze_layout input_file_path output_folder
            doc_intelligence_endpoint doc_intelligence_key
            aoai_api_base aoai_api_key aoai_deployment_name aoai_api_version
            w h)) =
  exited_files
    (snd (analyze_layout input_file_path output_folder
            doc_intelligence_endpoint doc_intelligence_key
            aoai_api_base aoai_api_key aoai_deployment_name aoai_api_version
            w h)) /\
  opened_images
    (snd (analyze_layout input_file_path output_folder
            doc_intelligence_endpoint doc_intelligence_key
            aoai_api_base aoai_api_key aoai_deployment_name aoai_api_version
            w h)) =
  exited_images
    (snd (analyze_layout input_file_path output_folder
            doc_intelligence_endpoint doc_intelligence_key
            aoai_api_base aoai_api_key aoai_deployment_name aoai_api_version
            w h)).
Proof.
  split.
  - revert w h.
    change (balanced opens_file exits_file
              (analyze_layout input_file_path output_folder
                 doc_intelligence_endpoint doc_intelligence_key
                 aoai_api_base aoai_api_key aoai_deployment_name
                 aoai_api_version)).
    poised.
  - revert w h.
    change (balanced opens_image exits_image
              (analyze_layout input_file_path output_folder
                 doc_intelligence_endpoint doc_intelligence_key
                 aoai_api_base aoai_api_key aoai_deployment_name
                 aoai_api_version)).
    poised.
Qed.

End NothingLeftOpen.

(** ** What the returned markdown is made of *)

Section Markdown.

Context {L : Libraries}.

Local Open Scope list_scope.

Variables (input_file_path output_folder
           doc_intelligence_endpoint doc_intelligence_key
           aoai_api_base aoai_api_key aoai_deployment_name aoai_api_version
           : string).

Lemma appended_app description texts texts' :
  appended description (texts ++ texts') =
  appended (appended description texts) texts'.
Proof. apply fold_left_app. Qed.

Lemma first_texts_of_texts (t : list event) (texts : list string) :
  first_choices t = map Some texts -> first_texts t = texts.
Proof.
  unfold first_texts. intros ->.
  induction texts as [|text texts IH]; cbn; [reflexivity | now rewrite IH].
Qed.

Lemma describe_region_text idx caption region acc acc' w h t :
  describe_region input_file_path output_folder aoai_api_base aoai_api_key
    aoai_deployment_name aoai_api_version idx caption region acc w h
    = (inr acc', t) ->
  exists text, first_choices t = [Some text] /\ acc' = (acc ++ text)%string.
Proof.
  unfold describe_region. intros H.
  apply bind_ok in H as (box & tb & t1 & Hb & H & ->).
  apply boundingbox_ok in Hb as [_ ->].
  apply bind_ok in H as (img & tc & t2 & Hc & H & ->).
  apply bind_ok in H as (u & ts & t3 & Hs & H & ->).
  apply ext_ok in Hs as [_ ->].
  apply bind_ok in H as (content & tu & t4 & Hu & H & ->).
  apply iadd_ok in H as (text & -> & -> & ->).
  assert (C : first_choices tc = []).
  { replace tc with (snd (crop_image_from_file input_file_path
                            (page_number region - 1) box w (h ++ [])))
      by now rewrite Hc.
    unfold crop_image_from_file. rewrite enter_then.
    unfold first_choices. rewrite pick_cons. cbn [first_choice_of]. quiet. }
  apply understand_image_with_gpt_ok in Hu
    as (client & f & data & response & -> & E).
  exists text. split; [|reflexivity].
  unfold first_choices in *. rewrite !pick_app, C, ?app_nil_r.
  cbn [app]. rewrite !pick_cons. cbn [first_choice_of]. rewrite E.
  reflexivity.
Qed.

Lemma region_loop_text idx caption (captions : option (list BoundingRegion))
    regions :
  forall acc acc' w h t,
    for_each regions
      (fun region img_description =>
         bind (contains region captions)
           (fun found =>
              if negb found then
                describe_region input_file_path output_folder aoai_api_base
                  aoai_api_key aoai_deployment_name aoai_api_version
                  idx caption region img_description
              else ret img_description)) acc w h = (inr acc', t) ->
    exists texts,
      first_choices t = map Some texts /\
      acc' = appended acc texts /\
      List.length texts =
        List.length
          (filter (fun region => negb (region_in region (regions_of captions)))
                  regions).
Proof.
  induction regions as [|region regions IH]; intros acc acc' w h t H;
    cbn [for_each] in H.
  - apply ret_ok in H as [-> ->]. now exists [].
  - apply bind_ok in H as (acc1 & t1 & t2 & H1 & H2 & ->).
    apply IH in H2 as (texts & H2 & -> & H3).
    apply bind_ok in H1 as (found & tf & tb & Hf & H1 & ->).
    apply contains_ok in Hf as (items & -> & -> & ->).
    cbn [filter regions_of app] in *. unfold first_choices in *.
    rewrite pick_app.
    destruct (region_in region items); cbn [negb] in *.
    + apply ret_ok in H1 as [-> ->]. now exists texts.
    + apply describe_region_text in H1 as (text & H1 & ->).
      unfold first_choices in H1. rewrite H1, H2.
      exists (text :: texts). cbn. now rewrite H3.
Qed.

Lemma plain_region_loop_text idx caption regions :
  forall acc acc' w h t,
    for_each regions
      (describe_region input_file_path output_folder aoai_api_base
         aoai_api_key aoai_deployment_name aoai_api_version idx caption)
      acc w h = (inr acc', t) ->
    exists texts,
      first_choices t = map Some texts /\
      acc' = appended acc texts /\
      List.length texts = List.length regions.
Proof.
  induction regions as [|region regions IH]; intros acc acc' w h t H;
    cbn [for_each] in H.
  - apply ret_ok in H as [-> ->]. now exists [].
  - apply bind_ok in H as (acc1 & t1 & t2 & H1 & H2 & ->).
    apply IH in H2 as (texts & H2 & -> & H3).
    apply describe_region_text in H1 as (text & H1 & ->).
    unfold first_choices in *. rewrite pick_app, H1, H2.
    exists (text :: texts). cbn. now rewrite H3.
Qed.

Lemma describe_figure_text
    (idx : Z) (figure : DocumentFigure) (desc : string)
    (w : oracle) (h t : list event) :
  describe_figure input_file_path output_folder aoai_api_base aoai_api_key
    aoai_deployment_name aoai_api_version idx figure w h = (inr desc, t) ->
  first_choices t = map Some (first_texts t) /\
  desc = fold_left String.append (first_texts t) EmptyString /\
  List.length (first_choices t) = List.length (body_regions figure).
Proof.
  unfold describe_figure, body_regions.
  destruct (figure_caption figure) as [caption|]; intros H;
    apply bind_ok in H as (regions & t1 & t2 & Hi & H & ->);
    apply iter_ok in Hi as [-> ->]; cbn [regions_of app].
  - apply region_loop_text in H as (texts & H1 & H2 & H3).
    rewrite (first_texts_of_texts _ _ H1), H1, length_map. now repeat split.
  - apply plain_region_loop_text in H as (texts & H1 & H2 & H3).
    rewrite (first_texts_of_texts _ _ H1), H1, length_map. now repeat split.
Qed.

(** The description gathered for a figure is the concatenation, in the
    order received, of the first choices of the completions received
    while the figure was described, each of which had a text for content,
    one per region of the figure that is not among the caption's; it is
    empty when there is no such region. *)
Theorem describe_figure_concatenates_first_choices
    (idx : Z) (figure : DocumentFigure) (desc : string)
    (w : oracle) (h t : list event) :
  describe_figure input_file_path output_folder aoai_api_base aoai_api_key
    aoai_deployment_name aoai_api_version idx figure w h = (inr desc, t) ->
  first_choices t = map Some (first_texts t) /\
  desc = fold_left String.append (first_texts t) EmptyString /\
  List.length (first_choices t) = List.length (body_regions figure).
Proof. apply describe_figure_text. Qed.

Lemma figures_run_patched w h i figures md segs mds md' :
  figures_run
    (figure_step input_file_path output_folder aoai_api_base aoai_api_key
       aoai_deployment_name aoai_api_version)
    w h i figures md segs mds md' ->
  md' = patched md i segs.
Proof.
  induction 1 as [|h i fig figs md seg md1 segs mds md' Hs Hr IH];
    [reflexivity|].
  cbn [patched]. apply figure_step_ok in Hs as (desc & Hd & ->).
  apply describe_figure_text in Hd as (_ & -> & _).
  exact IH.
Qed.

(** The markdown a run of the pipeline returns can be read off its
    trace.  The trace is the analysis followed by one segment per figure,
    the segment of figure [n] being what describing figure [n] added to
    the trace, from the history the run had reached by then.  The markdown
    is the heading normalizer applied to the analyzer's markdown patched
    once per figure, in the order of the figures and with the index of
    each: figure [n] is patched with the concatenation of the texts of the
    first choices received in its segment, which is the description
    gathered for it.  Without figures it is the normalized markdown of
    the analyzer. *)
Theorem analyze_layout_returns_patched_markdown
    (md : string) (w : oracle) (h t : list event) :
  analyze_layout input_file_path output_folder
    doc_intelligence_endpoint doc_intelligence_key
    aoai_api_base aoai_api_key aoai_deployment_name aoai_api_version w h
    = (inr md, t) ->
  exists client f poller result segs,
    t = analysis_events input_file_path doc_intelligence_endpoint
          doc_intelligence_key client f poller result ++ concat segs /\
    List.length segs = List.length (figures_of result) /\
    (forall n figure,
       nth_error (figures_of result) n = Some figure ->
       exists seg desc,
         nth_error segs n = Some seg /\
         describe_figure input_file_path output_folder aoai_api_base
           aoai_api_key aoai_deployment_name aoai_api_version
           (Z.of_nat n) figure w
           ((h ++ analysis_events input_file_path doc_intelligence_endpoint
                    doc_intelligence_key client f poller result)
              ++ concat (firstn n segs)) = (inr desc, seg) /\
         desc = appended EmptyString (first_texts seg)) /\
    md = convert_markdown_headings (patched (result_content result) 0 segs) /\
    (figures_of result = [] ->
     md = convert_markdown_headings (result_content result)).
Proof.
  intros H. apply analyze_layout_ok in H
    as (client & f & poller & result & segs & mds & last_md & -> & R & ->).
  exists client, f, poller, result, segs.
  pose proof (figures_run_length _ _ _ _ _ _ _ _ _ R) as [Hlen _].
  split; [reflexivity|]. split; [exact Hlen|]. split.
  { intros n figure Hn.
    destruct (figures_run_nth _ _ _ _ _ _ _ _ _ R n figure Hn)
      as (before & after & seg & Hs & _ & _ & Hstep).
    apply figure_step_ok in Hstep as (desc & Hd & _).
    exists seg, desc. split; [exact Hs|]. split; [exact Hd|].
    now apply describe_figure_text in Hd as (_ & -> & _). }
  pose proof (figures_run_patched _ _ _ _ _ _ _ _ R) as ->.
  split; [reflexivity|].
  intros E. rewrite E in Hlen. destruct segs; [reflexivity|discriminate].
Qed.

End Markdown.

(** ** More on the helpers *)

Section MoreOnHelpers.

Context {L : Libraries}.

Local Open Scope list_scope.

Lemma picks_only_with {A B C} (f : event -> option C) (P : C -> Prop)
    (enter_ : M A) (exit_ : A -> M unit) (body : A -> M B) :
  picks_only f P enter_ -> (forall x, picks_only f P (exit_ x)) ->
  (forall x, picks_only f P (body x)) ->
  picks_only f P (with_ enter_ exit_ body).
Proof.
  intros He Hx Hb. unfold with_. apply picks_only_bind; [exact He|].
  intros x w h. specialize (Hb x w h). destruct (body x w h) as [r t].
  specialize (Hx x w (h ++ t)). destruct (exit_ x w (h ++ t)) as [[e|u] t'];
    cbn [snd] in *; rewrite pick_app; now apply Forall_app.
Qed.

Lemma picks_only_for_each {A S C} (f : event -> option C) (P : C -> Prop)
    (body : A -> S -> M S) (l : list A) :
  (forall x acc, picks_only f P (body x acc)) ->
  forall acc, picks_only f P (for_each l body acc).
Proof.
  intros Hb. induction l as [|x l IH]; intros acc; cbn [for_each].
  - intros w h. constructor.
  - apply picks_only_bind; [apply Hb | exact IH].
Qed.

(** [crop_image_from_file] goes one way or the other: for a path whose
    guessed type is [application/pdf] it opens no image with
    [Image.open], seeks no frame and crops no image; for every other
    path, also one whose type cannot be guessed, it opens no document
    and asks for no pixmap.  This holds however the calls end. *)
Theorem crop_image_from_file_takes_one_path
    (file_path : string) (page : Z) (box : BoundingBox)
    (w : oracle) (h : list event) :
  (fst (guess_type file_path) = Some "application/pdf"%string ->
   opened_images (snd (crop_image_from_file file_path page box w h)) = [] /\
   seeks (snd (crop_image_from_file file_path page box w h)) = [] /\
   crop_boxes (snd (crop_image_from_file file_path page box w h)) = []) /\
  (fst (guess_type file_path) <> Some "application/pdf"%string ->
   opened_documents (snd (crop_image_from_file file_path page box w h)) = [] /\
   pixmap_requests (snd (crop_image_from_file file_path page box w h)) = []).
Proof.
  unfold crop_image_from_file. rewrite enter_then.
  unfold opened_images, seeks, crop_boxes, opened_documents, pixmap_requests.
  rewrite !pick_cons. cbv beta iota. cbn [opens_image opens_document].
  split; intros E.
  - apply is_str_true in E. rewrite E. repeat split; quiet.
  - destruct (is_str (fst (guess_type file_path)) "application/pdf") eqn:F.
    + apply is_str_true in F. contradiction.
    + repeat split; quiet.
Qed.

(** The PDF rasterizer closes the document only on its way out: a run
    that returns has closed the one document it opened; a run that
    raises has either not called [close] at all, leaving the document it
    may have opened as it is, or has raised from [close] itself. *)
Theorem crop_image_from_pdf_page_closes_only_on_return
    (pdf_path : string) (page : Z) (l t r b : float)
    (w : oracle) (h : list event) :
  (forall img tr,
     crop_image_from_pdf_page pdf_path page (l, t, r, b) w h = (inr img, tr) ->
     exists doc, opened_documents tr = [doc] /\ closed_documents tr = [doc]) /\
  (forall e tr,
     crop_image_from_pdf_page pdf_path page (l, t, r, b) w h = (inl e, tr) ->
     closed_documents tr = [] \/
     exists doc tr', tr = tr' ++ [Called (Document_close doc) (inl e)]).
Proof.
  split.
  - intros img tr H.
    apply crop_image_from_pdf_page_ok in H as (doc & pg & pix & ->).
    exists doc. split; reflexivity.
  - intros e tr.
    unfold crop_image_from_pdf_page, bind, ext, ret, closed_documents, pick.
    cbn.
    repeat match goal with
           | |- context [w ?h ?A ?c] =>
               destruct (w h A c) as [?|?] eqn:?; cbn
           end;
      intros H; try discriminate H; injection H as He Ht; subst e tr;
      try (left; reflexivity).
    right.
    match goal with
    | |- context [[?a; ?b; ?c; ?d; _]] =>
        eexists; exists [a; b; c; d]; reflexivity
    end.
Qed.

End MoreOnHelpers.

Section UnderstandNotes.

Context {L : Libraries}.

Lemma bind_any {A B} (m : M A) (k : A -> M B) r w h t :
  bind m k w h = (r, t) ->
  (exists e, m w h = (inl e, t) /\ r = inl e) \/
  (exists a t1 t2,
     m w h = (inr a, t1) /\ k a w (h ++ t1)%list = (r, t2) /\
     t = (t1 ++ t2)%list).
Proof.
  unfold bind. destruct (m w h) as [[e|a] t1].
  - intros [= <- <-]. left. now exists e.
  - destruct (k a w (h ++ t1)%list) as [r2 t2] eqn:E. intros [= <- <-].
    right. now exists a, t1, t2.
Qed.

Lemma understand_calls_of_understand base key deployment version path caption
    (w : oracle) (h : list event) :
  understand_calls
    (snd (understand_image_with_gpt base key deployment version path caption
            w h)) = [(path, caption)].
Proof.
  unfold understand_image_with_gpt. rewrite enter_then.
  unfold understand_calls. rewrite pick_cons. cbv beta iota.
  f_equal. quiet.
Qed.

End UnderstandNotes.

Section MoreOnDescribing.

Context {L : Libraries}.

Local Open Scope list_scope.

Variables (input_file_path output_folder
           doc_intelligence_endpoint doc_intelligence_key
           aoai_api_base aoai_api_key aoai_deployment_name aoai_api_version
           : string).

(** A region whose polygon has fewer than six numbers cannot be
    described: [describe_region] raises [IndexError] before it makes any
    call, so nothing is cropped, saved or requested for it. *)
Theorem describe_region_short_polygon
    (idx : Z) (caption : string) (region : BoundingRegion)
    (img_description : string) (w : oracle) (h : list event) :
  (List.length (polygon region) < 6)%nat ->
  describe_region input_file_path output_folder aoai_api_base aoai_api_key
    aoai_deployment_name aoai_api_version idx caption region
    img_description w h = (inl IndexError, []).
Proof.
  intros H. unfold describe_region, boundingbox, bind, getitem.
  destruct (polygon region) as [|a [|b [|c [|d [|e [|f l]]]]]];
    cbn in H |- *; try reflexivity. lia.
Qed.

(** All the crops of one figure are saved under one file name, made of
    the output folder, the input file's base name without its extension
    and the figure's index: a run of [describe_figure] that returns has
    saved as many times as it described regions, each time to that name,
    so that only the last crop of a figure stays on disk. *)
Theorem describe_figure_saves_to_one_file
    (idx : Z) (figure : DocumentFigure) (desc : string)
    (w : oracle) (h t : list event) :
  describe_figure input_file_path output_folder aoai_api_base aoai_api_key
    aoai_deployment_name aoai_api_version idx figure w h = (inr desc, t) ->
  saved_files t =
    repeat
      (path_join output_folder
         (fst (splitext (basename input_file_path)) ++ "_cropped_image_"
            ++ PyStr.str idx ++ ".png")%string)
      (List.length (body_regions figure)).
Proof.
  intros H. apply describe_figure_ok in H as (_ & S & _).
  rewrite S. clear S. unfold cropped_image_filename.
  induction (body_regions figure) as [|r l IH];
    cbn [map repeat List.length]; [reflexivity|].
  f_equal. exact IH.
Qed.

(** Every chat request a run of the pipeline sends, whether the run
    returns or raises, names the deployment as its model and caps the
    answer at 2000 tokens. *)
Theorem analyze_layout_chat_settings (w : oracle) (h : list event) :
  Forall (fun setting => setting = (aoai_deployment_name, 2000))
    (chat_settings
       (snd (analyze_layout input_file_path output_folder
               doc_intelligence_endpoint doc_intelligence_key
               aoai_api_base aoai_api_key aoai_deployment_name
               aoai_api_version w h))).
Proof.
  revert w h.
  change (picks_only
            (fun e => match e with
                      | Called (chat_completions_create _ model _ cap) _ =>
                          Some (model, cap)
                      | _ => None
                      end)
            (fun setting => setting = (aoai_deployment_name, 2000))
            (analyze_layout input_file_path output_folder
               doc_intelligence_endpoint doc_intelligence_key
               aoai_api_base aoai_api_key aoai_deployment_name
               aoai_api_version)).
  unfold analyze_layout, figure_step, describe_figure, describe_region,
    understand_image_with_gpt.
  repeat first
    [ solve [apply silent_picks_only; mute]
    | apply picks_only_ext; intros ? ? [= <-]; reflexivity
    | apply picks_only_with; [|intros|intros]
    | apply picks_only_for_each; intros
    | apply picks_only_bind; [|intros]
    | match goal with
      | |- picks_only _ _ (if ?b then _ else _) => destruct b
      | |- picks_only _ _ (match ?x with _ => _ end) => destruct x
      end ].
Qed.

(** What [understand_image_with_gpt] returns is the first choice of the
    one completion it received.  When it raises although every call
    succeeded, it raises [IndexError]: the request was sent and the
    completion came without choices. *)
Theorem understand_image_with_gpt_first_choice
    (image_path caption : string) (w : oracle) (h : list event) :
  (forall text t,
     understand_image_with_gpt aoai_api_base aoai_api_key aoai_deployment_name
       aoai_api_version image_path caption w h = (inr text, t) ->
     first_choices t = [text]) /\
  (forall e t,
     understand_image_with_gpt aoai_api_base aoai_api_key aoai_deployment_name
       aoai_api_version image_path caption w h = (inl e, t) ->
     existsb failed t = false ->
     e = IndexError /\ first_choices t = [] /\
     exists messages, chat_requests t = [messages]).
Proof.
  split.
  - intros text t H.
    apply understand_image_with_gpt_ok in H
      as (client & f & data & response & -> & E).
    unfold first_choices. rewrite !pick_cons. cbn [first_choice_of].
    now rewrite E.
  - intros e t.
    unfold understand_image_with_gpt, local_image_to_data_url.
    destruct (guess_type image_path) as [m enc].
    unfold with_, bind, ext, enter, ret, getitem. cbn -[nth_error].
    repeat match goal with
           | |- context [w ?h ?A ?c] =>
               destruct (w h A c) as [?|?] eqn:?; cbn -[nth_error]
           end;
      try (intros H F; injection H as He Ht; subst e t; discriminate F).
    destruct (nth_error (choices _) 0) eqn:E; cbn -[nth_error];
      intros H F; try discriminate H.
    injection H as He Ht; subst e t.
    split; [reflexivity|]. split.
    + unfold first_choices. rewrite !pick_cons. cbn [first_choice_of].
      now rewrite E.
    + eexists. reflexivity.
Qed.

(** A description is asked only of a crop that was written: whenever
    [describe_region] enters [understand_image_with_gpt], however the
    run ends, the crop was saved before under the name the description
    is asked for, and the saving call succeeded. *)
Theorem describe_region_describes_saved_crops_only
    (idx : Z) (caption : string) (region : BoundingRegion)
    (img_description : string) (w : oracle) (h : list event)
    (r : exception + string) (t : list event) :
  describe_region input_file_path output_folder aoai_api_base aoai_api_key
    aoai_deployment_name aoai_api_version idx caption region
    img_description w h = (r, t) ->
  understand_calls t = [] \/
  exists img before after,
    t = before
          ++ Called (Image_save img
                       (cropped_image_filename input_file_path output_folder
                          idx))
               (inr tt)
          :: after /\
    understand_calls before = [] /\
    understand_calls after =
      [ (cropped_image_filename input_file_path output_folder idx, caption) ].
Proof.
  unfold describe_region. intros H.
  apply bind_any in H as [(e & H & _)|(box & tb & t1 & Hb & H & ->)].
  { left. unfold boundingbox, bind, getitem in H.
    destruct (polygon region) as [|a [|b [|c [|d [|e' [|f l]]]]]];
      cbn in H; injection H as _ <-; reflexivity. }
  apply boundingbox_ok in Hb as [_ ->].
  pose proof (crop_image_from_file_notes input_file_path
                (page_number region - 1) box w (h ++ [])) as (_ & C & _).
  apply bind_any in H as [(e & H & _)|(img & tc & t2 & Hc & H & ->)].
  { left. now rewrite H in C. }
  rewrite Hc in C. cbn [snd] in C.
  apply bind_any in H as [(e & H & _)|(u & ts & t3 & Hs & H & ->)].
  { left. unfold ext in H. injection H as _ <-.
    unfold understand_calls in *. cbn [app]. now rewrite pick_app, C. }
  apply ext_ok in Hs as [_ ->]. destruct u.
  right. exists img, tc, t3. cbn [app]. split; [reflexivity|].
  split; [exact C|].
  apply bind_any in H as [(e & H & _)|(text & tu & t4 & Hu & H & ->)].
  - pose proof (understand_calls_of_understand aoai_api_base aoai_api_key
                  aoai_deployment_name aoai_api_version
                  (cropped_image_filename input_file_path output_folder idx)
                  caption w (((h ++ []) ++ tc)
                               ++ [Called (Image_save img
                                     (cropped_image_filename input_file_path
                                        output_folder idx)) (inr tt)])) as U.
    now rewrite H in U.
  - assert (T : t4 = []).
    { unfold iadd in H. destruct text; injection H as _ <-; reflexivity. }
    rewrite T, app_nil_r.
    pose proof (understand_calls_of_understand aoai_api_base aoai_api_key
                  aoai_deployment_name aoai_api_version
                  (cropped_image_filename input_file_path output_folder idx)
                  caption w (((h ++ []) ++ tc)
                               ++ [Called (Image_save img
                                     (cropped_image_filename input_file_path
                                        output_folder idx)) (inr tt)])) as U.
    now rewrite Hu in U.
Qed.

End MoreOnDescribing.

(** ** Values that are missing *)

Section MissingValues.

Context {L : Libraries}.

Local Open Scope list_scope.

Variables (input_file_path output_folder
           aoai_api_base aoai_api_key aoai_deployment_name aoai_api_version
           : string).

(** A call of [understand_image_with_gpt] that raises has received no
    first choice. *)
Lemma understand_raises_without_choice image_path caption w h e t :
  understand_image_with_gpt aoai_api_base aoai_api_key aoai_deployment_name
    aoai_api_version image_path caption w h = (inl e, t) ->
  first_choices t = [].
Proof.
  unfold understand_image_with_gpt, local_image_to_data_url.
  destruct (guess_type image_path) as [m enc].
  unfold with_, bind, ext, enter, ret, getitem. cbn -[nth_error].
  repeat match goal with
         | |- context [w ?h ?A ?c] =>
             destruct (w h A c) as [?|?] eqn:?; cbn -[nth_error]
         end;
    try (intros H; injection H as _ <-; reflexivity).
  destruct (nth_error (choices _) 0) eqn:E; cbn -[nth_error];
    intros H; try discriminate H.
  injection H as _ <-.
  unfold first_choices. rewrite !pick_cons. cbn [first_choice_of].
  now rewrite E.
Qed.

(** A figure whose bounding regions are missing cannot be described:
    [describe_figure] raises [TypeError] before it makes any call, with a
    caption or without.  A caption whose bounding regions are missing
    does the same as soon as the figure has a region to look for; it does
    no harm to a figure with an empty list of regions, which gets the
    empty description. *)
Theorem describe_figure_missing_regions
    (idx : Z) (figure : DocumentFigure) (w : oracle) (h : list event) :
  (figure_bounding_regions figure = None ->
   describe_figure input_file_path output_folder aoai_api_base aoai_api_key
     aoai_deployment_name aoai_api_version idx figure w h
   = (inl TypeError, [])) /\
  (forall caption region regions,
     figure_caption figure = Some caption ->
     caption_bounding_regions caption = None ->
     figure_bounding_regions figure = Some (region :: regions) ->
     describe_figure input_file_path output_folder aoai_api_base aoai_api_key
       aoai_deployment_name aoai_api_version idx figure w h
     = (inl TypeError, [])) /\
  (forall caption,
     figure_caption figure = Some caption ->
     caption_bounding_regions caption = None ->
     figure_bounding_regions figure = Some [] ->
     describe_figure input_file_path output_folder aoai_api_base aoai_api_key
       aoai_deployment_name aoai_api_version idx figure w h
     = (inr EmptyString, [])).
Proof.
  unfold describe_figure. split; [|split].
  - intros ->. now destruct (figure_caption figure).
  - intros caption region regions -> -> ->. reflexivity.
  - intros caption -> -> ->. reflexivity.
Qed.

(** A completion whose first choice has no content ends the description
    of the region with [TypeError]: whenever such a completion is among
    those a run of [describe_region] received, the run raised
    [TypeError]. *)
Theorem describe_region_missing_content
    (idx : Z) (caption : string) (region : BoundingRegion)
    (img_description : string) (w : oracle) (h : list event)
    (r : exception + string) (t : list event) :
  describe_region input_file_path output_folder aoai_api_base aoai_api_key
    aoai_deployment_name aoai_api_version idx caption region
    img_description w h = (r, t) ->
  In None (first_choices t) ->
  r = inl TypeError.
Proof.
  unfold describe_region. intros H.
  apply bind_any in H as [(e & H & _)|(box & tb & t1 & Hb & H & ->)].
  { unfold boundingbox, bind, getitem in H.
    destruct (polygon region) as [|a [|b [|c [|d [|e' [|f l]]]]]];
      cbn in H; injection H as _ <-; intros []. }
  apply boundingbox_ok in Hb as [_ ->].
  assert (C : forall r' tc,
            crop_image_from_file input_file_path (page_number region - 1)
              box w (h ++ []) = (r', tc) -> first_choices tc = []).
  { intros r' tc Hc.
    replace tc with (snd (crop_image_from_file input_file_path
                            (page_number region - 1) box w (h ++ [])))
      by now rewrite Hc.
    unfold crop_image_from_file. rewrite enter_then.
    unfold first_choices. rewrite pick_cons. cbn [first_choice_of]. quiet. }
  apply bind_any in H as [(e & H & _)|(img & tc & t2 & Hc & H & ->)].
  { cbn [app]. now rewrite (C _ _ H). }
  apply C in Hc.
  apply bind_any in H as [(e & H & _)|(u & ts & t3 & Hs & H & ->)].
  { unfold ext in H. injection H as _ <-.
    unfold first_choices in *. cbn [app]. rewrite pick_app, Hc.
    rewrite pick_cons. cbn. intros []. }
  apply ext_ok in Hs as [_ ->].
  apply bind_any in H as [(e & H & _)|(content & tu & t4 & Hu & H & ->)].
  { apply understand_raises_without_choice in H.
    unfold first_choices in *. cbn [app].
    rewrite pick_app, Hc, pick_cons. cbn [first_choice_of app].
    rewrite H. intros []. }
  assert (T : t4 = []).
  { unfold iadd in H. destruct content; injection H as _ <-; reflexivity. }
  subst t4.
  apply understand_image_with_gpt_ok in Hu
    as (client & f & data & response & -> & E).
  unfold first_choices in *. cbn [app]. rewrite !pick_app, Hc.
  rewrite !pick_cons. cbn [first_choice_of app pick flat_map]. rewrite E.
  cbn. intros [->|[]]. unfold iadd, raise in H. now injection H as <-.
Qed.

End MissingValues.

(** ** More on the patcher *)

Section PatcherAgain.

Local Open Scope nat_scope.

Lemma length_append (a b : string) :
  String.length (a ++ b) = String.length a + String.length b.
Proof. induction a as [|c a IH]; cbn; [reflexivity | now rewrite IH]. Qed.

Lemma substring_in_front (a b : string) : forall j n,
  j + n <= String.length a -> substring j n (a ++ b) = substring j n a.
Proof.
  induction a as [|c a IH]; intros j n H; cbn in H.
  - assert (j = 0) by lia. assert (n = 0) by lia. subst. cbn.
    now destruct b.
  - destruct j as [|j]; cbn.
    + destruct n as [|n]; [reflexivity|]. f_equal. apply IH. lia.
    + apply IH. lia.
Qed.

Lemma substring_behind (a b : string) : forall j n,
  substring (String.length a + j) n (a ++ b) = substring j n b.
Proof. induction a as [|c a IH]; intros j n; cbn; [reflexivity | apply IH]. Qed.

Lemma occurs_in_front (sub a b : string) (j : nat) :
  j + String.length sub <= String.length a ->
  PyStr.occurs_at sub (a ++ b) j <-> PyStr.occurs_at sub a j.
Proof.
  intros H. unfold PyStr.occurs_at.
  rewrite substring_in_front, length_append by exact H. intuition lia.
Qed.

Lemma occurs_behind (sub a b : string) (j : nat) :
  PyStr.occurs_at sub (a ++ b) (String.length a + j) <-> PyStr.occurs_at sub b j.
Proof.
  unfold PyStr.occurs_at. rewrite substring_behind, length_append.
  intuition lia.
Qed.

Lemma append_assoc (a b c : string) : ((a ++ b) ++ c = a ++ (b ++ c))%string.
Proof. induction a as [|x a IH]; cbn; [reflexivity | now rewrite IH]. Qed.

Lemma length_substring_front (s : string) (e : nat) :
  e <= String.length s -> String.length (substring 0 e s) = e.
Proof. intros H. rewrite length_substring. lia. Qed.

(** Patching a figure once more replaces the annotation of the earlier
    patch: when the placeholder and its closing tag are there and the
    first annotation holds no closing tag of its own before its end,
    patching with [d1] and then with [d2] gives what patching with [d2]
    alone gives.  With [d2 = d1], patching twice is patching once. *)
Theorem update_figure_description_overwrites
    (md d1 d2 : string) (idx : Z) (p q : nat) :
  PyStr.first_occurrence_from (start_substring idx) md 0 p ->
  PyStr.first_occurrence_from "</figure>" md
    (p + String.length (start_substring idx)) q ->
  PyStr.first_occurrence_from "</figure>" (new_string d1 ++ "</figure>") 0
    (String.length (new_string d1)) ->
  update_figure_description (update_figure_description md d1 idx) d2 idx =
  update_figure_description md d2 idx.
Proof.
  fold end_substring.
  set (marker := start_substring idx). set (e := p + String.length marker).
  intros Hp Hq Hd.
  assert (Hne := start_substring_nonempty idx). fold marker in Hne.
  pose proof (index_of_first_occurrence _ _ _ _ Hne Hp) as Ip.
  pose proof (index_of_first_occurrence _ _ _ _ end_substring_nonempty Hq) as Iq.
  assert (P : forall d,
            update_figure_description md d idx =
            (substring 0 e md ++ new_string d
               ++ substring q (String.length md - q) md)%string).
  { intros d. pose proof (update_figure_description_cases md d idx) as C.
    fold marker in C. rewrite Ip in C. cbv zeta in C. fold e in C.
    now rewrite Iq in C. }
  rewrite !P.
  set (A := substring 0 e md). set (S := substring q (String.length md - q) md).
  set (N1 := new_string d1).
  destruct Hp as (_ & [Bp Op] & Mp). destruct Hq as (Eq & [Bq Oq] & Mq).
  change (String.length end_substring) with 9 in *.
  assert (LA : String.length A = e) by (apply length_substring_front; lia).
  assert (Emd : md = (A ++ substring e (String.length md - e) md)%string)
    by (symmetry; apply substring_split).
  assert (ES : S = (end_substring
                      ++ substring (q + 9) (String.length md - q - 9) md)%string).
  { unfold S.
    assert (X : String.length md - q = 9 + (String.length md - q - 9)) by lia.
    rewrite X at 1. rewrite substring_add. now rewrite Oq. }
  (* the placeholder is still first found at [p] *)
  assert (Hp1 : PyStr.first_occurrence_from marker (A ++ N1 ++ S) 0 p).
  { split; [lia|]. split.
    - apply occurs_in_front; [lia|]. apply (occurs_in_front marker A
        (substring e (String.length md - e) md)); [lia|].
      rewrite <- Emd. now split.
    - intros j Hj Hoc. apply (Mp j Hj).
      apply occurs_in_front in Hoc; [|fold e; lia]. rewrite Emd.
      apply occurs_in_front; [fold e; lia | exact Hoc]. }
  (* the closing tag after it is the one that ends the annotation *)
  assert (Hq1 : PyStr.first_occurrence_from end_substring (A ++ N1 ++ S) e
                  (e + String.length N1)).
  { split; [lia|]. split.
    - rewrite <- LA. apply occurs_behind.
      replace (String.length N1) with (String.length N1 + 0) by lia.
      apply occurs_behind. rewrite ES. apply occurs_in_front; [cbn; lia|].
      split; [cbn; lia | reflexivity].
    - intros j Hj Hoc.
      replace j with (String.length A + (j - e)) in Hoc by lia.
      apply occurs_behind in Hoc. rewrite ES, <- append_assoc in Hoc.
      apply occurs_in_front in Hoc;
        [|rewrite length_append; change (String.length end_substring) with 9;
          lia].
      destruct Hd as (_ & _ & Md).
      apply (Md (j - e)); [unfold N1 in Hj; lia | exact Hoc]. }
  pose proof (update_figure_description_cases (A ++ N1 ++ S) d2 idx) as C.
  fold marker in C.
  rewrite (index_of_first_occurrence _ _ _ _ Hne Hp1) in C. cbv zeta in C.
  fold e in C.
  rewrite (index_of_first_occurrence _ _ _ _ end_substring_nonempty Hq1) in C.
  rewrite C. f_equal; [|f_equal].
  - rewrite substring_in_front by lia. rewrite <- LA. apply substring_all.
  - rewrite <- append_assoc.
    replace (e + String.length N1) with (String.length (A ++ N1) + 0)
      by (rewrite length_append; lia).
    rewrite substring_behind.
    replace (String.length ((A ++ N1) ++ S) - (String.length (A ++ N1) + 0))
      with (String.length S) by (rewrite !length_append; lia).
    apply substring_all.
Qed.

End PatcherAgain.

(** ** Placeholders do not match one another *)

Section Placeholders.

Local Open Scope nat_scope.

Lemma plain_chars_uint (d : Decimal.uint) :
  plain_chars (NilEmpty.string_of_uint d).
Proof.
  unfold plain_chars.
  induction d; cbn; constructor; try assumption; split; discriminate.
Qed.

Lemma plain_chars_str (n : Z) : plain_chars (PyStr.str n).
Proof.
  unfold PyStr.str, NilZero.string_of_int, NilZero.string_of_uint.
  destruct (Z.to_int n) as [d|d]; destruct d;
    try apply plain_chars_uint;
    repeat (constructor; try (split; discriminate));
    apply plain_chars_uint.
Qed.

Lemma str_injective (a b : Z) : PyStr.str a = PyStr.str b -> a = b.
Proof.
  unfold PyStr.str. intros H.
  assert (N : forall n, Z.to_int n <> Decimal.Pos Decimal.Nil /\
                        Z.to_int n <> Decimal.Neg Decimal.Nil).
  { intros [|q|q]; cbn; split; try discriminate;
      intros [= E]; now apply (DecimalPos.Unsigned.to_uint_nonnil q). }
  apply (f_equal NilZero.int_of_string) in H.
  rewrite !NilZero.isi in H by apply N.
  injection H as H. apply (f_equal Z.of_int) in H.
  now rewrite !DecimalZ.of_to in H.
Qed.

Lemma get_of_substring (s : string) : forall j n c r,
  substring j (S n) s = String c r -> get j s = Some c.
Proof.
  induction s as [|x s IH]; intros j n c r H.
  - destruct j; discriminate H.
  - destruct j as [|j]; cbn in H |- *.
    + now injection H as -> _.
    + eapply IH, H.
Qed.

Lemma get_in (s : string) : forall j c,
  get j s = Some c -> In c (list_ascii_of_string s).
Proof.
  induction s as [|x s IH]; intros j c H; [discriminate H|].
  destruct j as [|j]; cbn in H |- *.
  - injection H as ->. now left.
  - right. eapply IH, H.
Qed.

Lemma plain_chars_in (s : string) (c : ascii) :
  plain_chars s -> In c (list_ascii_of_string s) ->
  c <> "!"%char /\ c <> ")"%char.
Proof. unfold plain_chars. rewrite Forall_forall. auto. Qed.

(** Two plain texts, each closed by a parenthesis: when the first so
    closed is a prefix of the second so closed, they are the same text. *)
Lemma closed_prefix (sa : string) : forall sb,
  plain_chars sa -> plain_chars sb ->
  substring 0 (String.length (sa ++ ")")) (sb ++ ")") = (sa ++ ")")%string ->
  sa = sb.
Proof.
  induction sa as [|c sa IH]; intros sb Pa Pb H.
  - destruct sb as [|c' sb]; [reflexivity|]. cbn in H. injection H as H.
    exfalso. inversion Pb as [|? ? [_ Hc] _]. now apply Hc.
  - destruct sb as [|c' sb]; cbn in H.
    + injection H as H _. exfalso. inversion Pa as [|? ? [_ Hc] _].
      now apply Hc.
    + injection H as -> H. f_equal.
      inversion Pa; inversion Pb; subst. now apply IH.
Qed.

(** The placeholder of one figure is found in the placeholder of another
    nowhere: the closing parenthesis keeps [figures/1] from matching
    [figures/10].  A placeholder occurs in a placeholder only as itself. *)
Theorem placeholder_only_matches_itself (a b : Z) (j : nat) :
  PyStr.occurs_at (start_substring a) (start_substring b) j ->
  a = b /\ j = 0.
Proof.
  intros [_ H].
  assert (J : j = 0).
  { unfold start_substring in H. cbn [append String.length] in H.
    apply get_of_substring in H.
    do 12 (destruct j as [|j]; [try reflexivity; discriminate H|]).
    exfalso. cbn in H. apply get_in in H.
    rewrite <- (string_of_list_ascii_of_string (PyStr.str b ++ ")")) in H.
    rewrite list_ascii_of_string_of_list_ascii in H.
    assert (P : plain_chars (PyStr.str b)) by apply plain_chars_str.
    revert P H. generalize (PyStr.str b). intros sb P.
    induction sb as [|c sb IH]; cbn.
    - intros [E|[]]. discriminate E.
    - intros [E|Hin].
      + inversion P as [|? ? [Hc _] _]. now apply Hc.
      + inversion P; subst. now apply IH. }
  split; [|exact J]. subst j.
  apply str_injective. unfold start_substring in H.
  cbn [append String.length] in H.
  cbn [substring] in H. injection H as H.
  apply closed_prefix; [apply plain_chars_str | apply plain_chars_str | exact H].
Qed.

End Placeholders.

(** ** Exceptions are passed on as they are *)

Section Relays.

Context {L : Libraries}.

Local Open Scope list_scope.

Lemma raised_in_front e t t' : raised_by_a_call e t -> raised_by_a_call e (t ++ t').
Proof. intros (A & c & H). exists A, c. apply in_or_app. now left. Qed.

Lemma raised_behind e t t' : raised_by_a_call e t' -> raised_by_a_call e (t ++ t').
Proof. intros (A & c & H). exists A, c. apply in_or_app. now right. Qed.

Lemma relays_ret {A} (a : A) : relays (ret a).
Proof. intros w h e t H. discriminate H. Qed.

Lemma relays_raise_index {A} : relays (@raise L A IndexError).
Proof. intros w h e t H. left. now injection H as <- _. Qed.

Lemma relays_raise_type {A} : relays (@raise L A TypeError).
Proof. intros w h e t H. right. left. now injection H as <- _. Qed.

Lemma relays_enter (f : invocation) : relays (enter f).
Proof. intros w h e t H. discriminate H. Qed.

Lemma relays_ext {A} (c : call A) : relays (ext c).
Proof.
  intros w h e t H. unfold ext in H.
  destruct (w h A c) as [e'|a] eqn:E; [|discriminate].
  injection H as <- <-. right. right. exists A, c. now left.
Qed.

Lemma relays_getitem {A} (l : list A) (i : nat) : relays (getitem l i).
Proof.
  unfold getitem. destruct (nth_error l i);
    [apply relays_ret | apply relays_raise_index].
Qed.

Lemma relays_bind {A B} (m : M A) (k : A -> M B) :
  relays m -> (forall a, relays (k a)) -> relays (bind m k).
Proof.
  intros Hm Hk w h e t H.
  apply bind_any in H as [(e' & H & [= <-])|(a & t1 & t2 & H1 & H2 & ->)].
  - exact (Hm _ _ _ _ H).
  - destruct (Hk _ _ _ _ _ H2) as [E|[E|R]]; [now left | now right; left |].
    right. right. now apply raised_behind.
Qed.

Lemma relays_with {A B} (enter_ : M A) (exit_ : A -> M unit) (body : A -> M B) :
  relays enter_ -> (forall x, relays (exit_ x)) -> (forall x, relays (body x)) ->
  relays (with_ enter_ exit_ body).
Proof.
  intros He Hx Hb. unfold with_. apply relays_bind; [exact He|].
  intros x w h e t H.
  destruct (body x w h) as [r t1] eqn:E1.
  destruct (exit_ x w (h ++ t1)) as [[e2|u] t2] eqn:E2;
    injection H as -> <-.
  - destruct (Hx _ _ _ _ _ E2) as [E|[E|R]]; [now left | now right; left |].
    right. right. now apply raised_behind.
  - destruct (Hb _ _ _ _ _ E1) as [E|[E|R]]; [now left | now right; left |].
    right. right. now apply raised_in_front.
Qed.

Lemma relays_for_each {A S} (body : A -> S -> M S) (l : list A) :
  (forall x acc, relays (body x acc)) ->
  forall acc, relays (for_each l body acc).
Proof.
  intros Hb. induction l as [|x l IH]; intros acc; cbn [for_each].
  - apply relays_ret.
  - apply relays_bind; [apply Hb | exact IH].
Qed.

Lemma relays_crop_image_from_pdf_page path page box :
  relays (crop_image_from_pdf_page path page box).
Proof.
  destruct box as [[[l t] r] b]. unfold crop_image_from_pdf_page.
  cbn [box_items map fitz_Rect].
  repeat first [ apply relays_ret | apply relays_ext
               | apply relays_bind; [|intros] ].
Qed.

(** The pipeline wraps and translates no exception: when a run raises,
    what it raises is the exception one of its calls ended with, or it is
    [IndexError], raised by the module's own indexing of a polygon or of
    the choices of a completion, or it is [TypeError], raised by the
    module's own handling of a value that is [None]: going through or
    searching bounding regions that are missing, or appending a content
    that is missing to the description.  From the module itself comes
    nothing else: the box it hands to [fitz.Rect] always has four
    numbers. *)
Theorem analyze_layout_relays_exceptions
    (input_file_path output_folder
     doc_intelligence_endpoint doc_intelligence_key
     aoai_api_base aoai_api_key aoai_deployment_name aoai_api_version
     : string) (w : oracle) (h t : list event) (e : exception) :
  analyze_layout input_file_path output_folder
    doc_intelligence_endpoint doc_intelligence_key
    aoai_api_base aoai_api_key aoai_deployment_name aoai_api_version w h
    = (inl e, t) ->
  e = IndexError \/ e = TypeError \/ raised_by_a_call e t.
Proof.
  revert w h e t.
  change (relays
            (analyze_layout input_file_path output_folder
               doc_intelligence_endpoint doc_intelligence_key
               aoai_api_base aoai_api_key aoai_deployment_name
               aoai_api_version)).
  unfold analyze_layout, figure_step, describe_figure, describe_region,
    boundingbox, understand_image_with_gpt, local_image_to_data_url,
    crop_image_from_file, iter, contains, iadd.
  repeat first
    [ apply relays_crop_image_from_pdf_page
    | apply relays_ret | apply relays_raise_index | apply relays_raise_type
    | apply relays_enter
    | apply relays_getitem | apply relays_ext
    | apply relays_with; [|intros|intros]
    | apply relays_for_each; intros
    | apply relays_bind; [|intros]
    | match goal with
      | |- relays (if ?b then _ else _) => destruct b
      | |- relays (match ?x with _ => _ end) => destruct x
      end
    | progress unfold crop_image_from_image ].
Qed.

End Relays.

(** ** The further theorems at work in the small world *)

Lemma analyze_layout_returns_only_without_failures_witness :
  existsb failed Demo.trace = false.
Proof.
  apply (analyze_layout_returns_only_without_failures
           "doc.pdf" "out" "https://layout" "key1"
           "https://chat" "key2" "gpt" "2024-02-01"
           Demo.returned Demo.world []).
  vm_compute. reflexivity.
Defined.

Lemma analyze_layout_relays_exceptions_witness :
  Raised "page not in document" = IndexError \/
  Raised "page not in document" = TypeError \/
  raised_by_a_call (Raised "page not in document")
    (snd (analyze_layout "doc.pdf" "out" "https://layout" "key1"
            "https://chat" "key2" "gpt" "2024-02-01" Demo.no_page [])).
Proof.
  apply (analyze_layout_relays_exceptions
           "doc.pdf" "out" "https://layout" "key1"
           "https://chat" "key2" "gpt" "2024-02-01" Demo.no_page []).
  vm_compute. reflexivity.
Defined.

Lemma describe_figure_concatenates_first_choices_witness :
  first_choices
    (snd (describe_figure "doc.pdf" "out" "https://chat" "key2" "gpt"
            "2024-02-01" 0 Demo.two_parts Demo.world [])) =
  map Some
    (first_texts
       (snd (describe_figure "doc.pdf" "out" "https://chat" "key2" "gpt"
               "2024-02-01" 0 Demo.two_parts Demo.world []))) /\
  "a charta chart"%string =
    fold_left String.append
      (first_texts
         (snd (describe_figure "doc.pdf" "out" "https://chat" "key2" "gpt"
                 "2024-02-01" 0 Demo.two_parts Demo.world [])))
      EmptyString /\
  List.length
    (first_choices
       (snd (describe_figure "doc.pdf" "out" "https://chat" "key2" "gpt"
               "2024-02-01" 0 Demo.two_parts Demo.world []))) =
  List.length (body_regions Demo.two_parts).
Proof.
  apply (describe_figure_concatenates_first_choices
           "doc.pdf" "out" "https://chat" "key2" "gpt" "2024-02-01"
           0 Demo.two_parts "a charta chart" Demo.world []).
  vm_compute. reflexivity.
Defined.

Lemma analyze_layout_returns_patched_markdown_witness :
  exists client f poller result segs,
    Demo.trace = (analysis_events "doc.pdf" "https://layout" "key1"
                    client f poller result ++ concat segs)%list /\
    List.length segs = List.length (figures_of result) /\
    (forall n figure,
       nth_error (figures_of result) n = Some figure ->
       exists seg desc,
         nth_error segs n = Some seg /\
         describe_figure "doc.pdf" "out" "https://chat" "key2" "gpt"
           "2024-02-01" (Z.of_nat n) figure Demo.world
           (([] ++ analysis_events "doc.pdf" "https://layout" "key1"
                     client f poller result)
              ++ concat (firstn n segs))%list = (inr desc, seg) /\
         desc = appended EmptyString (first_texts seg)) /\
    Demo.returned =
      convert_markdown_headings (patched (result_content result) 0 segs) /\
    (figures_of result = [] ->
     Demo.returned = convert_markdown_headings (result_content result)).
Proof.
  apply (analyze_layout_returns_patched_markdown
           "doc.pdf" "out" "https://layout" "key1"
           "https://chat" "key2" "gpt" "2024-02-01"
           Demo.returned Demo.world []).
  vm_compute. reflexivity.
Defined.

Lemma crop_image_from_file_takes_one_path_witness :
  (opened_images
     (snd (crop_image_from_file "doc.pdf" 0 (0, 0, 2, 2)%float Demo.world []))
     = [] /\
   seeks
     (snd (crop_image_from_file "doc.pdf" 0 (0, 0, 2, 2)%float Demo.world []))
     = [] /\
   crop_boxes
     (snd (crop_image_from_file "doc.pdf" 0 (0, 0, 2, 2)%float Demo.world []))
     = []) /\
  (opened_documents
     (snd (crop_image_from_file "scan.tif" 0 (0, 0, 2, 2)%float Demo.world []))
     = [] /\
   pixmap_requests
     (snd (crop_image_from_file "scan.tif" 0 (0, 0, 2, 2)%float Demo.world []))
     = []).
Proof.
  split.
  - apply (proj1 (crop_image_from_file_takes_one_path
                    "doc.pdf" 0 (0, 0, 2, 2)%float Demo.world [])).
    reflexivity.
  - apply (proj2 (crop_image_from_file_takes_one_path
                    "scan.tif" 0 (0, 0, 2, 2)%float Demo.world [])).
    discriminate.
Defined.

Lemma crop_image_from_pdf_page_closes_only_on_return_witness :
  (exists doc,
     opened_documents
       (snd (crop_image_from_pdf_page "doc.pdf" 0 (0, 0, 2, 2)%float
               Demo.world [])) = [doc] /\
     closed_documents
       (snd (crop_image_from_pdf_page "doc.pdf" 0 (0, 0, 2, 2)%float
               Demo.world [])) = [doc]) /\
  (closed_documents
     (snd (crop_image_from_pdf_page "doc.pdf" 7 (0, 0, 2, 2)%float
             Demo.no_page [])) = [] \/
   exists doc tr',
     snd (crop_image_from_pdf_page "doc.pdf" 7 (0, 0, 2, 2)%float
            Demo.no_page []) =
     (tr' ++ [Called (Document_close doc)
                (inl (Raised "page not in document"))])%list).
Proof.
  split.
  - apply (proj1 (crop_image_from_pdf_page_closes_only_on_return
                    "doc.pdf" 0 0 0 2 2 Demo.world []) Demo.derived).
    reflexivity.
  - apply (proj2 (crop_image_from_pdf_page_closes_only_on_return
                    "doc.pdf" 7 0 0 2 2 Demo.no_page [])).
    reflexivity.
Defined.

(** With no page to load, the document that was opened stays open. *)
Example document_left_open :
  opened_documents
    (snd (crop_image_from_pdf_page "doc.pdf" 7 (0, 0, 2, 2)%float
            Demo.no_page [])) = [ "doc.pdf"%string ] /\
  closed_documents
    (snd (crop_image_from_pdf_page "doc.pdf" 7 (0, 0, 2, 2)%float
            Demo.no_page [])) = [].
Proof. split; reflexivity. Qed.

Lemma describe_region_short_polygon_witness :
  describe_region "doc.pdf" "out" "https://chat" "key2" "gpt" "2024-02-01"
    0 EmptyString Demo.stub EmptyString Demo.world [] = (inl IndexError, []).
Proof.
  apply (describe_region_short_polygon
           "doc.pdf" "out" "https://chat" "key2" "gpt" "2024-02-01"
           0 EmptyString Demo.stub EmptyString Demo.world []).
  cbn. lia.
Defined.

Lemma describe_figure_saves_to_one_file_witness :
  saved_files
    (snd (describe_figure "doc.pdf" "out" "https://chat" "key2" "gpt"
            "2024-02-01" 0 Demo.two_parts Demo.world [])) =
  repeat
    (path_join "out"
       (fst (splitext (basename "doc.pdf")) ++ "_cropped_image_"
          ++ PyStr.str 0 ++ ".png")%string)
    (List.length (body_regions Demo.two_parts)).
Proof.
  apply (describe_figure_saves_to_one_file
           "doc.pdf" "out" "https://chat" "key2" "gpt" "2024-02-01"
           0 Demo.two_parts "a charta chart" Demo.world []).
  vm_compute. reflexivity.
Defined.

(** The two crops of the figure in two parts went to one file. *)
Example two_crops_one_file :
  saved_files
    (snd (describe_figure "doc.pdf" "out" "https://chat" "key2" "gpt"
            "2024-02-01" 0 Demo.two_parts Demo.world [])) =
  [ "out/doc_cropped_image_0.png"%string;
    "out/doc_cropped_image_0.png"%string ].
Proof. reflexivity. Qed.

Lemma understand_image_with_gpt_first_choice_witness :
  first_choices
    (snd (understand_image_with_gpt "https://chat" "key2" "gpt" "2024-02-01"
            "out/doc_cropped_image_0.png" "Fig. 1" Demo.world []))
    = [ Some "a chart"%string ] /\
  (IndexError = IndexError /\
   first_choices
     (snd (understand_image_with_gpt "https://chat" "key2" "gpt" "2024-02-01"
             "out/doc_cropped_image_0.png" "Fig. 1" Demo.no_choice [])) = [] /\
   exists messages,
     chat_requests
       (snd (understand_image_with_gpt "https://chat" "key2" "gpt"
               "2024-02-01" "out/doc_cropped_image_0.png" "Fig. 1"
               Demo.no_choice [])) = [messages]).
Proof.
  split.
  - apply (proj1 (understand_image_with_gpt_first_choice
                    "https://chat" "key2" "gpt" "2024-02-01"
                    "out/doc_cropped_image_0.png" "Fig. 1" Demo.world [])).
    reflexivity.
  - apply (proj2 (understand_image_with_gpt_first_choice
                    "https://chat" "key2" "gpt" "2024-02-01"
                    "out/doc_cropped_image_0.png" "Fig. 1" Demo.no_choice [])).
    + reflexivity.
    + reflexivity.
Defined.

Lemma describe_region_describes_saved_crops_only_witness :
  understand_calls
    (snd (describe_region "doc.pdf" "out" "https://chat" "key2" "gpt"
            "2024-02-01" 0 EmptyString Demo.square EmptyString
            Demo.no_choice [])) = [] \/
  exists img before after,
    snd (describe_region "doc.pdf" "out" "https://chat" "key2" "gpt"
           "2024-02-01" 0 EmptyString Demo.square EmptyString
           Demo.no_choice []) =
      (before
         ++ Called (Image_save img (cropped_image_filename "doc.pdf" "out" 0))
              (inr tt)
         :: after)%list /\
    understand_calls before = [] /\
    understand_calls after =
      [ (cropped_image_filename "doc.pdf" "out" 0, EmptyString) ].
Proof.
  apply (describe_region_describes_saved_crops_only
           "doc.pdf" "out" "https://chat" "key2" "gpt" "2024-02-01"
           0 EmptyString Demo.square EmptyString Demo.no_choice []
           (inl IndexError)).
  reflexivity.
Defined.

Lemma update_figure_description_overwrites_witness :
  update_figure_description
    (update_figure_description Demo.markdown "a chart" 0) "two bars" 0 =
  update_figure_description Demo.markdown "two bars" 0.
Proof.
  apply (update_figure_description_overwrites
           Demo.markdown "a chart" "two bars" 0 8 27).
  - apply index_first_occurrence; [discriminate | reflexivity].
  - apply index_first_occurrence; [discriminate | reflexivity].
  - apply index_first_occurrence; [discriminate | reflexivity].
Defined.

Lemma placeholder_only_matches_itself_witness : 3 = 3 /\ 0%nat = 0%nat.
Proof.
  apply (placeholder_only_matches_itself 3 3 0).
  split; [cbn; lia | reflexivity].
Defined.

Lemma describe_figure_missing_regions_witness :
  describe_figure "doc.pdf" "out" "https://chat" "key2" "gpt" "2024-02-01"
    0 Demo.no_regions Demo.world [] = (inl TypeError, []) /\
  describe_figure "doc.pdf" "out" "https://chat" "key2" "gpt" "2024-02-01"
    1 {| figure_caption := Some Demo.bare_caption;
         figure_bounding_regions := Some [Demo.square] |}
    Demo.world [] = (inl TypeError, []) /\
  describe_figure "doc.pdf" "out" "https://chat" "key2" "gpt" "2024-02-01"
    1 {| figure_caption := Some Demo.bare_caption;
         figure_bounding_regions := Some [] |}
    Demo.world [] = (inr EmptyString, []).
Proof.
  split; [|split].
  - apply (proj1 (describe_figure_missing_regions
                    "doc.pdf" "out" "https://chat" "key2" "gpt" "2024-02-01"
                    0 Demo.no_regions Demo.world [])).
    reflexivity.
  - apply (proj1 (proj2 (describe_figure_missing_regions
                           "doc.pdf" "out" "https://chat" "key2" "gpt"
                           "2024-02-01" 1
                           {| figure_caption := Some Demo.bare_caption;
                              figure_bounding_regions := Some [Demo.square] |}
                           Demo.world []))
             Demo.bare_caption Demo.square []); reflexivity.
  - apply (proj2 (proj2 (describe_figure_missing_regions
                           "doc.pdf" "out" "https://chat" "key2" "gpt"
                           "2024-02-01" 1
                           {| figure_caption := Some Demo.bare_caption;
                              figure_bounding_regions := Some [] |}
                           Demo.world []))
             Demo.bare_caption); reflexivity.
Defined.

Lemma describe_region_missing_content_witness :
  fst (describe_region "doc.pdf" "out" "https://chat" "key2" "gpt"
         "2024-02-01" 0 EmptyString Demo.square EmptyString
         Demo.no_content []) = inl TypeError.
Proof.
  apply (describe_region_missing_content
           "doc.pdf" "out" "https://chat" "key2" "gpt" "2024-02-01"
           0 EmptyString Demo.square EmptyString Demo.no_content [] _
           (snd (describe_region "doc.pdf" "out" "https://chat" "key2" "gpt"
                   "2024-02-01" 0 EmptyString Demo.square EmptyString
                   Demo.no_content []))).
  - apply surjective_pairing.
  - vm_compute. left. reflexivity.
Defined.

(** A first choice without content ends the whole run with [TypeError],
    although no call has failed. *)
Example missing_content_ends_the_run :
  fst (analyze_layout "doc.pdf" "out" "https://layout" "key1"
         "https://chat" "key2" "gpt" "2024-02-01" Demo.no_content [])
  = inl TypeError /\
  existsb failed
    (snd (analyze_layout "doc.pdf" "out" "https://layout" "key1"
            "https://chat" "key2" "gpt" "2024-02-01" Demo.no_content []))
  = false.
Proof. split; reflexivity. Qed.
